(** * gio: the material button compositor and the blit vertex stage

    A shallow embedding of [widget/material/button.go] ([drawInk],
    [ButtonLayoutStyle.Layout]) and of [gpu/shaders/blit.vert].

    Go's [float32] and [float64] are IEEE 754 binary32 and binary64; they are
    modelled bit-exactly with the executable specification of
    [Stdlib.Floats.SpecFloat] (round to nearest, ties to even).  The
    operation buffer [gtx.Ops] is a list of operations threaded through a
    small state monad. *)

From Stdlib Require Import ZArith List Bool Lia QArith Lqa.
From Stdlib Require String.
From Stdlib Require Import Floats.SpecFloat.
Import ListNotations.
Open Scope Z_scope.

(** ** IEEE 754 arithmetic *)

(** Go's [float32]: binary32, 24 bits of precision, exponent of infinity 128. *)
Module F32.
Definition prec : Z := 24.
Definition emax : Z := 128.
Definition t := spec_float.

Definition add : t -> t -> t := SFadd prec emax.
Definition sub : t -> t -> t := SFsub prec emax.
Definition mul : t -> t -> t := SFmul prec emax.
Definition div : t -> t -> t := SFdiv prec emax.
Definition neg : t -> t := SFopp.
Definition ltb : t -> t -> bool := SFltb.
Definition leb : t -> t -> bool := SFleb.
Definition eqb : t -> t -> bool := SFeqb.
(** Go's [x > y]. *)
Definition gtb (x y : t) : bool := SFltb y x.

(** [float32(n)] for an integer [n] (one correctly rounded step). *)
Definition of_int (n : Z) : t := binary_normalize prec emax n 0 false.

(** The value [m * 2^e], rounded to binary32. *)
Definition of_dyadic (m e : Z) : t := binary_normalize prec emax m e false.

(** [float32(x)] for a binary64 [x]. *)
Definition of_f64 (x : spec_float) : t :=
  match x with
  | S754_finite s m e => binary_normalize prec emax (cond_Zopp s (Zpos m)) e s
  | _ => x
  end.

Definition zero : t := S754_zero false.
Definition one : t := of_int 1.
Definition two : t := of_int 2.
Definition three : t := of_int 3.

(** An untyped decimal constant [n/d] converted to [float32]: the nearest
    binary32 to the exact quotient, which is what a correctly rounded
    division of the two exactly representable integers yields. *)
Definition of_ratio (n d : Z) : t := div (of_int n) (of_int d).

Definition is_nan (x : t) : bool :=
  match x with S754_nan => true | _ => false end.

(** [byte(x)]: the fraction is discarded (truncation towards zero).  For a
    value outside 0..255 the Go specification leaves the result to the
    implementation; the low eight bits of the truncated integer are taken here,
    and 0 for an infinity or a NaN. *)
Definition trunc (x : t) : Z :=
  match x with
  | S754_finite s m e =>
      cond_Zopp s (match e with
                   | Zneg p => Z.shiftr (Zpos m) (Zpos p)
                   | _ => Z.shiftl (Zpos m) e
                   end)
  | _ => 0
  end.
Definition to_byte (x : t) : Z := (trunc x) mod 256.

(** The exact rational value of a finite float. *)
Definition to_Q (x : t) : Q :=
  match x with
  | S754_finite s m e =>
      let v := match e with
               | Zneg p => Qmake (Zpos m) (Pos.shiftl 1 (Npos p))
               | _ => inject_Z (Z.shiftl (Zpos m) e)
               end in
      if s then Qopp v else v
  | _ => 0%Q
  end.
End F32.

(** Go's [float64]: binary64. *)
Module F64.
Definition prec : Z := 53.
Definition emax : Z := 1024.
Definition t := spec_float.

Definition add : t -> t -> t := SFadd prec emax.
Definition div : t -> t -> t := SFdiv prec emax.
Definition of_int (n : Z) : t := binary_normalize prec emax n 0 false.
(** [math.Sqrt]. *)
Definition sqrt : t -> t := SFsqrt prec emax.
End F64.

(** ** Package [time] (Go standard library) *)

Module time.
(** An instant, as the number of nanoseconds since the zero [Time]
    (January 1, year 1, 00:00:00 UTC).  Monotonic clock readings are left
    out: two instants differ by the difference of their wall clock times. *)
Definition Time := Z.
(** A [Duration] is an [int64] count of nanoseconds. *)
Definition Duration := Z.

Definition Second : Duration := 1000000000.
Definition minDuration : Duration := - 2 ^ 63.
Definition maxDuration : Duration := 2 ^ 63 - 1.

Definition zero : Time := 0.
Definition IsZero (t : Time) : bool := t =? 0.

(** [t.Sub(u)]: the difference, saturated to the range of [Duration]. *)
Definition Sub (t u : Time) : Duration :=
  let d := t - u in
  if d <? minDuration then minDuration
  else if maxDuration <? d then maxDuration
  else d.

(** [d.Seconds()]: [float64(sec) + float64(nsec)/1e9] with the truncating
    division and remainder of Go. *)
Definition Seconds (d : Duration) : F64.t :=
  let sec := Z.quot d Second in
  let nsec := Z.rem d Second in
  F64.add (F64.of_int sec) (F64.div (F64.of_int nsec) (F64.of_int 1000000000)).
End time.

(** ** Geometry, colors and operations *)

Module f32.
Record Point := Pt { X : F32.t; Y : F32.t }.
Record Rectangle := { Min : Point; Max : Point }.
Definition Point_Add (p q : Point) : Point :=
  Pt (F32.add (X p) (X q)) (F32.add (Y p) (Y q)).
Definition Point_Sub (p q : Point) : Point :=
  Pt (F32.sub (X p) (X q)) (F32.sub (Y p) (Y q)).
Definition zeroPt : Point := Pt F32.zero F32.zero.
End f32.

Module image.
Record Point := Pt { X : Z; Y : Z }.
Record Rectangle := { Min : Point; Max : Point }.
Definition zeroPt : Point := Pt 0 0.
End image.

Module color.
(** [color.RGBA]: four bytes. *)
Record RGBA := { R : Z; G : Z; B : Z; A : Z }.
End color.

Module clip.
(** [clip.Rect]: a rectangle with four corner radii. *)
Record Rect := { Rect_ : f32.Rectangle; SE : F32.t; SW : F32.t; NW : F32.t; NE : F32.t }.
End clip.

(** The operations the code of [button.go] adds to [gtx.Ops]. *)
Inductive Op :=
| PushOp                                   (* op.Push *)
| PopOp                                    (* StackOp.Pop *)
| ColorOp (c : color.RGBA)                 (* paint.ColorOp *)
| PaintOp (r : f32.Rectangle)              (* paint.PaintOp *)
| TransformOp (offset : f32.Point)         (* op.TransformOp *)
| ClipOp (r : clip.Rect)                   (* clip.Rect{..}.Op(ops).Add(ops) *)
| InvalidateOp                             (* op.InvalidateOp *)
| PointerRectOp (r : image.Rectangle)      (* pointer.Rect *)
| ClickOp.                                 (* gesture.Click.Add: input registration *)

Definition Ops := list Op.

(** Modelled from the spec: [op.TransformOp{}] and its [Offset] method, of
    package [op], which is not among the sources.  Section 4.3 has the
    output offset be the position minus half the size: an offset composes by
    addition. *)
Definition TransformOp_zero : f32.Point := f32.zeroPt.
Definition TransformOp_Offset (t o : f32.Point) : f32.Point := f32.Point_Add t o.

(** ** The operation buffer as state *)

Definition M (A : Type) : Type := Ops -> A * Ops.
Definition ret {A} (a : A) : M A := fun ops => (a, ops).
Definition bind {A B} (m : M A) (k : A -> M B) : M B :=
  fun ops => let '(a, ops') := m ops in k a ops'.
Definition Add (o : Op) : M unit := fun ops => (tt, ops ++ [o]).
Definition emitted {A} (m : M A) : Ops := snd (m []).

Notation "x <- m ;; k" := (bind m (fun x => k))
  (at level 61, m at next level, right associativity).
Notation "m ;; k" := (bind m (fun _ => k))
  (at level 61, right associativity).

(** [for _, c := range l { f(c) }] *)
Fixpoint forEach {A} (f : A -> M unit) (l : list A) : M unit :=
  match l with
  | [] => ret tt
  | a :: l' => f a ;; forEach f l'
  end.

(** ** Widgets and the layout context *)

Module widget.
(** [widget.Press]. *)
Record Press := { Position : f32.Point; Start : time.Time; End : time.Time }.
(** [widget.Clickable], as far as [button.go] reads it. *)
Record Clickable := { history : list Press }.
Definition History (b : Clickable) : list Press := history b.
End widget.

Module unit.
Inductive Unit := UnitPx | UnitDp | UnitSp.
Record Value := { V : F32.t; U : Unit }.
End unit.

Module layout.
Record Constraints := { Min : image.Point; Max : image.Point }.
Record Dimensions := { Size : image.Point; Baseline : Z }.
(** [layout.Context] without its operation buffer, which is threaded by
    [M].  [Queue] is [None] for a nil event queue; [Now] and [Px] are the
    methods the context forwards to its configuration. *)
Record Context := {
  Constraints_ : Constraints;
  Queue : option unit;
  Now : time.Time;
  Px : unit.Value -> Z
}.
Definition with_Min (gtx : Context) (m : image.Point) : Context :=
  {| Constraints_ := {| Min := m; Max := Max (Constraints_ gtx) |};
     Queue := Queue gtx; Now := Now gtx; Px := Px gtx |}.
Definition Widget := Context -> M Dimensions.
Record Inset := { Top : unit.Value; Right : unit.Value;
                  Bottom : unit.Value; Left : unit.Value }.
End layout.

(** ** [drawInk] ([button.go], lines 192-238) *)

Section DrawInk.
Import widget layout.

(** [const duration = 0.4], used at type [float32]. *)
Definition duration : F32.t := F32.of_ratio 4 10.
(** [const col = 0.8]. *)
Definition col : F32.t := F32.of_ratio 8 10.
Definition c0_7 : F32.t := F32.of_ratio 7 10.
Definition c0_5 : F32.t := F32.of_ratio 1 2.
Definition c0xff : F32.t := F32.of_int 255.
(** [2 * float32(math.Sqrt(2))]. *)
Definition two_sqrt2 : F32.t :=
  F32.mul F32.two (F32.of_f64 (F64.sqrt (F64.of_int 2))).

(** Lines 193-197: [t] as it is compared with 1.0. *)
Definition ink_t (gtx : Context) (c : Press) : F32.t :=
  let now := Now gtx in
  let age := time.Sub now (Start c) in
  let t := F32.of_f64 (time.Seconds age) in
  F32.div t duration.

(** Line 210. *)
Definition bezierBlend (t2 : F32.t) : F32.t :=
  F32.mul (F32.mul t2 t2) (F32.sub F32.three (F32.mul F32.two t2)).

(** Lines 205-237: the function body after the expiry check, with the
    value of [t] on entry.  [defer op.Push(gtx.Ops).Pop()] pushes at once
    and pops when the function returns. *)
Definition drawInk_from (gtx : Context) (c : Press) (t : F32.t) : M unit :=
  Add PushOp ;;
  let t2 := t in
  let t2 := if F32.gtb t2 F32.one then F32.sub F32.two t2 else t2 in
  let bezierBlend := bezierBlend t2 in
  let size := F32.of_int (image.X (Min (Constraints_ gtx))) in
  let h := F32.of_int (image.Y (Min (Constraints_ gtx))) in
  let size := if F32.gtb h size then h else size in
  let size := F32.mul size two_sqrt2 in
  let size := F32.mul size bezierBlend in
  let alpha := F32.mul c0_7 bezierBlend in
  let ba := F32.to_byte (F32.mul alpha c0xff) in
  let bc := F32.to_byte (F32.mul (F32.mul alpha col) c0xff) in
  let ink := ColorOp {| color.A := ba; color.R := bc; color.G := bc; color.B := bc |} in
  Add ink ;;
  let rr := F32.mul size c0_5 in
  Add (TransformOp
         (TransformOp_Offset (TransformOp_Offset TransformOp_zero (Position c))
            (f32.Pt (F32.neg rr) (F32.neg rr)))) ;;
  Add (ClipOp {| clip.Rect_ := {| f32.Min := f32.zeroPt; f32.Max := f32.Pt size size |};
                 clip.NE := rr; clip.NW := rr; clip.SE := rr; clip.SW := rr |}) ;;
  Add (PaintOp {| f32.Min := f32.zeroPt; f32.Max := f32.Pt size size |}) ;;
  Add InvalidateOp ;;
  Add PopOp.

(** Lines 192-238. *)
Definition drawInk (gtx : Context) (c : Press) : M unit :=
  let t := ink_t gtx c in
  if F32.gtb t F32.one then
    if time.IsZero (Start c) || negb (time.IsZero (End c)) then
      (* Too old. *)
      ret tt
    else
      drawInk_from gtx c F32.one
  else
    drawInk_from gtx c t.
End DrawInk.

(** ** [ButtonLayoutStyle.Layout] ([button.go], lines 121-151) *)

Module material.
Import widget layout.

(** Line 34. *)
Record ButtonLayoutStyle := {
  Background : color.RGBA;
  CornerRadius : unit.Value;
  Inset_ : Inset;
  Button : Clickable
}.

(** [layout.Direction]. *)
Inductive Direction := NW | N | NE | E | SE | S | SW | W | Center.

(** [layout.StackChild], made by [layout.Stacked] and [layout.Expanded]. *)
Record StackChild := { expanded : bool; child : Widget }.
Definition Stacked (w : Widget) : StackChild := {| expanded := false; child := w |}.
Definition Expanded (w : Widget) : StackChild := {| expanded := true; child := w |}.

(** [op.Record(ops)] ... [macro.Stop()]: the operations a widget adds, kept
    aside. *)
Definition record {A} (m : M A) : A * Ops := m [].

(** [call.Add(ops)]: recorded operations go into the buffer. *)
Definition Add_all (l : Ops) : M unit := fun ops => (tt, ops ++ l).

(** [layout.FPt]. *)
Definition FPt (p : image.Point) : f32.Point :=
  f32.Pt (F32.of_int (image.X p)) (F32.of_int (image.Y p)).

Definition Point_max (a b : image.Point) : image.Point :=
  image.Pt (Z.max (image.X a) (image.X b)) (Z.max (image.Y a) (image.Y b)).

(** Part of the model of [layout.Stack.Layout] below: where a child of
    size [sz] goes in a stack of size [maxSZ]. *)
Definition align (a : Direction) (maxSZ sz : image.Point) : image.Point :=
  let x := match a with
           | N | S | Center => Z.quot (image.X maxSZ - image.X sz) 2
           | NE | SE | E => image.X maxSZ - image.X sz
           | _ => 0
           end in
  let y := match a with
           | W | Center | E => Z.quot (image.Y maxSZ - image.Y sz) 2
           | SW | S | SE => image.Y maxSZ - image.Y sz
           | _ => 0
           end in
  image.Pt x y.

(** Part of the model of [layout.Stack.Layout] below: one layer in the
    buffer, the child's operations, moved to their place, between a push and
    its pop. *)
Definition scope (p : image.Point) (ops : Ops) : Ops :=
  PushOp :: TransformOp (TransformOp_Offset TransformOp_zero (FPt p)) :: ops ++ [PopOp].

(** Part of the model of [layout.Stack.Layout] below: the largest size
    among the stacked (not expanded) children, each laid out in [sgtx]. *)
Definition stacked_size (sgtx : Context) (children : list StackChild) : image.Point :=
  fold_left (fun sz ch =>
               if expanded ch then sz
               else Point_max sz (Size (fst (record (child ch sgtx)))))
            children image.zeroPt.

(** Part of the model of [layout.Stack.Layout] below: each child laid out
    and recorded, a stacked child in [sgtx], without the outer minimum size,
    an expanded child in [egtx], stretched to the largest stacked child. *)
Definition lay_out (gtx : Context) (children : list StackChild)
    : list (Dimensions * Ops) :=
  let sgtx := with_Min gtx image.zeroPt in
  let egtx := with_Min gtx (stacked_size sgtx children) in
  map (fun ch => record (child ch (if expanded ch then egtx else sgtx))) children.

Definition stack_size (laid : list (Dimensions * Ops)) : image.Point :=
  fold_left (fun sz r => Point_max sz (Size (fst r))) laid image.zeroPt.

(** Modelled from the spec: [layout.Stack.Layout], of package [layout],
    which is not among the sources.  Sections 4.4 and 5: the layers are
    emitted strictly in the order given, back to front, each one isolated by a
    scoped push and pop.  Sections 2 and 4.4: a stacked child is measured
    without the outer minimum size, an expanded child is stretched to the
    largest stacked child. *)
Definition Stack_Layout (a : Direction) (gtx : Context)
    (children : list StackChild) : M Dimensions :=
  let laid := lay_out gtx children in
  let maxSZ := stack_size laid in
  forEach (fun r : Dimensions * Ops =>
             Add_all (scope (align a maxSZ (Size (fst r))) (snd r)))
          laid ;;
  ret {| Size := maxSZ; Baseline := 0 |}.

(** Modelled from the spec: [fill], a helper of package [material] outside
    [button.go].  Section 4.4: "fill with the surface's background color",
    over the minimum size of the layer. *)
Definition fill (gtx : Context) (c : color.RGBA) : M Dimensions :=
  let d := Min (Constraints_ gtx) in
  Add (ColorOp c) ;;
  Add (PaintOp {| f32.Min := f32.zeroPt; f32.Max := FPt d |}) ;;
  ret {| Size := d; Baseline := 0 |}.

(** Modelled from the spec: [widget.Clickable.Layout], of package [widget],
    which is not among the sources.  Section 4.4: "an invisible shape
    (rectangle ...) registered purely for input routing; contributes no
    pixels". *)
Definition Clickable_Layout (b : Clickable) (gtx : Context) : M Dimensions :=
  Add PushOp ;;
  Add (PointerRectOp {| image.Min := image.zeroPt; image.Max := Min (Constraints_ gtx) |}) ;;
  Add ClickOp ;;
  Add PopOp ;;
  ret {| Size := Min (Constraints_ gtx); Baseline := 0 |}.

(** Line 41.  [Icon] is [nil] or a [widget.Icon], of which [button.go]
    touches the color only. *)
Module IconButtonStyle.
Record Icon := { IconColor : color.RGBA }.
Record t := {
  Background : color.RGBA;
  Color : color.RGBA;
  Icon_ : option Icon;
  Size : unit.Value;
  Inset : layout.Inset;
  Button : widget.Clickable
}.
End IconButtonStyle.

Section Layout.
(** Collaborators of other packages, whose internals the layout does not
    depend on: [mulAlpha] of package [material] (outside [button.go]),
    [layout.Center.Layout] and [layout.Inset.Layout]. *)
Variable mulAlpha : color.RGBA -> Z -> color.RGBA.
Variable Center_Layout : Context -> Widget -> M Dimensions.
Variable Inset_Layout : Inset -> Context -> Widget -> M Dimensions.

(** Lines 124-142: the background layer. *)
Definition background_layer (b : ButtonLayoutStyle) : Widget := fun gtx =>
  let rr := F32.of_int (Px gtx (CornerRadius b)) in
  Add (ClipOp {| clip.Rect_ := {| f32.Min := f32.zeroPt;
                                  f32.Max := f32.Pt (F32.of_int (image.X (Min (Constraints_ gtx))))
                                                    (F32.of_int (image.Y (Min (Constraints_ gtx)))) |};
                 clip.NE := rr; clip.NW := rr; clip.SE := rr; clip.SW := rr |}) ;;
  let background := Background b in
  let background := match Queue gtx with
                    | None => mulAlpha (Background b) 150
                    | Some _ => background
                    end in
  dims <- fill gtx background ;;
  forEach (drawInk gtx) (History (Button b)) ;;
  ret dims.

(** Lines 143-148: the content layer; [min] is the minimum size captured at
    line 122. *)
Definition content_layer (b : ButtonLayoutStyle) (min : image.Point) (w : Widget)
    : Widget := fun gtx =>
  let gtx := with_Min gtx min in
  Center_Layout gtx (fun gtx => Inset_Layout (Inset_ b) gtx w).

(** Lines 121-151. *)
Definition ButtonLayoutStyle_Layout (b : ButtonLayoutStyle) (gtx : Context)
    (w : Widget) : M Dimensions :=
  let min := Min (Constraints_ gtx) in
  Stack_Layout Center gtx
    [ Expanded (background_layer b);
      Stacked (content_layer b min w);
      Expanded (Clickable_Layout (Button b)) ].

(** Lines 155-172: the background layer of [IconButtonStyle.Layout], a
    disc whose diameter is the minimum width. *)
Definition icon_background_layer (b : IconButtonStyle.t) : Widget := fun gtx =>
  let size := image.X (Min (Constraints_ gtx)) in
  let sizef := F32.of_int size in
  let rr := F32.mul sizef c0_5 in
  Add (ClipOp {| clip.Rect_ := {| f32.Min := f32.zeroPt; f32.Max := f32.Pt sizef sizef |};
                 clip.NE := rr; clip.NW := rr; clip.SE := rr; clip.SW := rr |}) ;;
  let background := IconButtonStyle.Background b in
  let background := match Queue gtx with
                    | None => mulAlpha (IconButtonStyle.Background b) 150
                    | Some _ => background
                    end in
  dims <- fill gtx background ;;
  forEach (drawInk gtx) (History (IconButtonStyle.Button b)) ;;
  ret dims.
End Layout.

(** Lines 93-104: the ink layer of [Clickable], a plain rectangle ([clip.Rect]
    with no radius set) and the ripples. *)
Definition clickable_ink_layer (button : widget.Clickable) : Widget := fun gtx =>
  Add (ClipOp {| clip.Rect_ := {| f32.Min := f32.zeroPt;
                                  f32.Max := f32.Pt (F32.of_int (image.X (Min (Constraints_ gtx))))
                                                    (F32.of_int (image.Y (Min (Constraints_ gtx)))) |};
                 clip.NE := F32.zero; clip.NW := F32.zero;
                 clip.SE := F32.zero; clip.SW := F32.zero |}) ;;
  forEach (drawInk gtx) (History button) ;;
  ret {| Size := Min (Constraints_ gtx); Baseline := 0 |}.

(** Lines 88-107: [Clickable] lays out a rectangular clickable widget
    without further decoration.  [layout.Stack{}] has the zero alignment,
    [NW]. *)
Definition Clickable (gtx : Context) (button : widget.Clickable) (w : Widget)
    : M Dimensions :=
  Stack_Layout NW gtx
    [ Expanded (Clickable_Layout button);
      Expanded (clickable_ink_layer button);
      Stacked w ].
End material.

(** ** The vertex stage ([blit.vert]) *)

Module blit.
Import String.
Open Scope string_scope.

Inductive glsl_type := float | vec2_t.

(** Lines 7-13: the members of the uniform block, in the order of their
    declaration. *)
Definition Block_members : list (string * glsl_type) :=
  [ ("z", float); ("scale", vec2_t); ("offset", vec2_t);
    ("uvScale", vec2_t); ("uvOffset", vec2_t) ].

(** The scalar components of a member, in storage order. *)
Definition components (m : string * glsl_type) : list string :=
  match snd m with
  | float => [fst m]
  | vec2_t => [fst m ++ ".x"; fst m ++ ".y"]
  end.

Definition Block_components : list string := flat_map components Block_members.

Section Vert.
(** GLSL's [float] with its product and sum; the shader relies on nothing
    else. *)
Variable T : Type.
Variable mul add : T -> T -> T.
Variable one : T.

Record vec2 := Vec2 { x : T; y : T }.
Record vec4 := Vec4 { x4 : T; y4 : T; z4 : T; w4 : T }.

Definition vmul (a b : vec2) : vec2 := Vec2 (mul (x a) (x b)) (mul (y a) (y b)).
Definition vadd (a b : vec2) : vec2 := Vec2 (add (x a) (x b)) (add (y a) (y b)).

(** Lines 7-13. *)
Record Block := {
  z : T;
  scale : vec2;
  offset : vec2;
  uvScale : vec2;
  uvOffset : vec2
}.

(** The values of a block, component by component in the order of
    [Block_components]. *)
Definition Block_values (b : Block) : list T :=
  [ z b; x (scale b); y (scale b); x (offset b); y (offset b);
    x (uvScale b); y (uvScale b); x (uvOffset b); y (uvOffset b) ].

(** Lines 21-27: [main], from the block and the inputs [pos] and [uv] to
    [gl_Position] and [vUV]. *)
Definition main (b : Block) (pos uv : vec2) : vec4 * vec2 :=
  let p := pos in
  let p := vmul p (scale b) in
  let p := vadd p (offset b) in
  let gl_Position := Vec4 (x p) (y p) (z b) one in
  let vUV := vadd (vmul uv (uvScale b)) (uvOffset b) in
  (gl_Position, vUV).
End Vert.

Arguments Vec2 {T}.
Arguments Vec4 {T}.
Arguments x {T}.
Arguments y {T}.
Arguments z {T}.
Arguments scale {T}.
Arguments offset {T}.
Arguments uvScale {T}.
Arguments uvOffset {T}.
Arguments Block_values {T}.
Arguments main {T}.
End blit.

(** * Notions the statements are written with *)

Section Notions.
Import widget layout.

(** The test of lines 198-199 that leads to the early return. *)
Definition expired (gtx : Context) (c : Press) : bool :=
  F32.gtb (ink_t gtx c) F32.one &&
  (time.IsZero (Start c) || negb (time.IsZero (End c))).

(** The value of [t] at line 205, when that line is reached. *)
Definition ink_clamped (gtx : Context) (c : Press) : F32.t :=
  if F32.gtb (ink_t gtx c) F32.one then F32.one else ink_t gtx c.

(** The larger of two floats, as lines 211-214 compute it. *)
Definition fmax (a b : F32.t) : F32.t := if F32.gtb b a then b else a.

(** Lines 206-209: the ping-pong fold. *)
Definition ink_t2 (t : F32.t) : F32.t :=
  if F32.gtb t F32.one then F32.sub F32.two t else t.

(** [t] as a function of the age alone. *)
Definition t_of_age (age : time.Duration) : F32.t :=
  F32.div (F32.of_f64 (time.Seconds age)) duration.

(** A ripple that is drawn is the seven operations of lines 205-237. *)
Definition is_ripple (ops : Ops) : Prop :=
  exists ink off cl r,
    ops = [PushOp; ColorOp ink; TransformOp off; ClipOp cl; PaintOp r;
           InvalidateOp; PopOp].

Definition is_invalidate (o : Op) : bool :=
  match o with InvalidateOp => true | _ => false end.

(** The number of [InvalidateOp]s in a buffer. *)
Definition invalidates (ops : Ops) : nat := length (filter is_invalidate ops).

Definition is_stack_op (o : Op) : bool :=
  match o with PushOp | PopOp => true | _ => false end.

(** Operations that change what is drawn. *)
Definition paints (o : Op) : bool :=
  match o with PaintOp _ | ColorOp _ | ClipOp _ => true | _ => false end.

(** Two floats are the same datum (which tells the two zeros apart and
    holds of the NaN). *)
Definition same (x y : spec_float) : bool :=
  match x, y with
  | S754_zero a, S754_zero b | S754_infinity a, S754_infinity b => Bool.eqb a b
  | S754_nan, S754_nan => true
  | S754_finite a m e, S754_finite b m' e' =>
      Bool.eqb a b && Pos.eqb m m' && Z.eqb e e'
  | _, _ => false
  end.

(** A float that is not a NaN and whose sign, unless it is a zero, is [s]. *)
Definition signed (s : bool) (x : spec_float) : Prop :=
  match x with
  | S754_nan => False
  | S754_zero _ => True
  | S754_infinity s' | S754_finite s' _ _ => s' = s
  end.

(** The polynomial of line 210 in exact rational arithmetic. *)
Definition blend_exact (x : Q) : Q := (x * x * (3 - 2 * x))%Q.

(** The float [k/128]. *)
Definition grid (k : Z) : F32.t := F32.of_dyadic k (-7).

(** The numerators 0, 1, ..., 128. *)
Definition grid_points : list Z := map Z.of_nat (seq 0 129).

(** The computed blend at [j/128] is the exact one, and is not above the
    computed blend at [k/128]. *)
Definition grid_check (j k : Z) : bool :=
  Qeq_bool (F32.to_Q (bezierBlend (grid j))) (blend_exact (Qmake j 128)) &&
  F32.leb (bezierBlend (grid j)) (bezierBlend (grid k)).

(** An age of [n] milliseconds. *)
Definition ms (n : Z) : time.Duration := n * 1000000.

(** Every element of a list is at most itself and every later one. *)
Fixpoint pairwise_le (l : list F32.t) : bool :=
  match l with
  | [] => true
  | x :: r => forallb (F32.leb x) l && pairwise_le r
  end.

(** The blend of the ripple at each whole millisecond from 0 to 400. *)
Definition blends_by_ms : list F32.t :=
  map (fun k => bezierBlend (t_of_age (ms (Z.of_nat k)))) (seq 0 401).

(** A context with the given clock and minimum constraints, and a press
    at (10, 20), for concrete evaluations. *)
Definition gtx_at (now : time.Time) (w h : Z) : Context :=
  {| Constraints_ := {| Min := image.Pt w h; Max := image.Pt 400 400 |};
     Queue := Some tt; Now := now; Px := fun _ => 4 |}.
Definition press_at (start end_ : time.Time) : Press :=
  {| Position := f32.Pt (F32.of_int 10) (F32.of_int 20);
     Start := start; End := end_ |}.
End Notions.

Section Machine.
(** The drawing state that operations set (transform, clip, color) is any
    type [G], updated by [apply]. *)
Variable G : Type.
Variable apply : Op -> G -> G.

(** Modelled from the spec: the reading of [op.Push] and [StackOp.Pop] by
    the consumer of the buffer (package [op] and the renderer are not among
    the sources), after the "scoped push/pop discipline" of section 4.4:
    a push saves the current drawing state, a pop restores the state saved by
    the matching push. *)
Definition run1 (st : G * list G) (o : Op) : G * list G :=
  let '(g, stk) := st in
  match o with
  | PushOp => (g, g :: stk)
  | PopOp => match stk with
             | saved :: stk' => (saved, stk')
             | [] => (g, [])
             end
  | _ => (apply o g, stk)
  end.

Definition run (ops : Ops) (st : G * list G) : G * list G :=
  fold_left run1 ops st.
End Machine.

Arguments run1 {G} apply st o.
Arguments run {G} apply ops st.

(** * Facts *)

(** ** Facts about the float model *)

Section FloatFacts.
Variables prec emax : Z.

Lemma shr_1_nonneg (mrs : shr_record) :
  0 <= shr_m mrs -> 0 <= shr_m (shr_1 mrs).
Proof.
  destruct mrs as [m r s]; simpl.
  destruct m as [|[p|p|]|[p|p|]]; simpl; lia.
Qed.

Lemma iter_shr_1_nonneg (p : positive) :
  forall mrs, 0 <= shr_m mrs -> 0 <= shr_m (iter_pos shr_1 p mrs).
Proof.
  induction p as [p IH|p IH|]; intros mrs H; simpl.
  - apply IH, IH, shr_1_nonneg, H.
  - apply IH, IH, H.
  - apply shr_1_nonneg, H.
Qed.

Lemma shr_fexp_nonneg (m e : Z) (l : location) :
  0 <= m -> 0 <= shr_m (fst (shr_fexp prec emax m e l)).
Proof.
  intros H. unfold shr_fexp, shr.
  assert (H0 : 0 <= shr_m (shr_record_of_loc m l))
    by (destruct l as [|[]]; simpl; exact H).
  destruct (fexp prec emax (Zdigits2 m + e) - e) as [|p|p]; simpl; trivial.
  apply iter_shr_1_nonneg, H0.
Qed.

Lemma round_nearest_even_nonneg (m : Z) (l : location) :
  0 <= m -> 0 <= round_nearest_even m l.
Proof.
  intros H. destruct l as [|[]]; simpl; try lia.
  destruct (Z.even m); lia.
Qed.

Lemma signed_not_nan (s : bool) (x : spec_float) :
  signed s x -> F32.is_nan x = false.
Proof. destruct x; simpl; intros H; now try contradiction. Qed.

Lemma binary_round_aux_signed (s : bool) (m e : Z) (l : location) :
  0 <= m -> signed s (binary_round_aux prec emax s m e l).
Proof.
  intros H. unfold binary_round_aux.
  pose proof (shr_fexp_nonneg m e l H) as H1.
  destruct (shr_fexp prec emax m e l) as [mrs' e']; simpl in H1.
  pose proof (round_nearest_even_nonneg _ (loc_of_shr_record mrs') H1) as H2.
  pose proof (shr_fexp_nonneg _ e' loc_Exact H2) as H3.
  destruct (shr_fexp prec emax _ e' loc_Exact) as [mrs'' e'']; simpl in H3.
  destruct (shr_m mrs'') as [|p|p]; simpl; trivial.
  - destruct (e'' <=? emax - prec); simpl; trivial.
  - lia.
Qed.

Lemma binary_round_signed (s : bool) (m : positive) (e : Z) :
  signed s (binary_round prec emax s m e).
Proof.
  unfold binary_round.
  destruct (shl_align m e _) as [mz ez].
  apply binary_round_aux_signed. lia.
Qed.

Lemma binary_normalize_not_nan (m e : Z) (sz : bool) :
  F32.is_nan (binary_normalize prec emax m e sz) = false.
Proof.
  destruct m as [|p|p]; simpl; trivial;
    eapply signed_not_nan, binary_round_signed.
Qed.

Lemma binary_normalize_signed (m e : Z) (sz : bool) :
  signed (m <? 0) (binary_normalize prec emax m e sz).
Proof.
  destruct m as [|p|p]; simpl; trivial; apply binary_round_signed.
Qed.

Lemma SFdiv_signed (s : bool) (x : spec_float) (my : positive) (ey : Z) :
  signed s x -> signed s (SFdiv prec emax x (S754_finite false my ey)).
Proof.
  destruct x as [sx|sx| |sx mx ex]; simpl; trivial.
  - intros ->. now rewrite xorb_false_r.
  - intros ->. rewrite xorb_false_r.
    unfold SFdiv_core_binary.
    set (m' := match _ - _ - _ with Z0 => _ | Zpos _ => _ | Zneg _ => _ end).
    assert (Hm : 0 <= m').
    { subst m'. destruct (_ - _ - _); try lia. apply Z.shiftl_nonneg. lia. }
    pose proof (Z.div_pos m' (Zpos my) Hm ltac:(lia)) as Hq.
    unfold Z.div in Hq.
    destruct (Z.div_eucl m' (Zpos my)) as [q r]; simpl in Hq.
    now apply binary_round_aux_signed.
Qed.

Lemma SFadd_signed_not_nan (s : bool) (x y : spec_float) :
  signed s x -> signed s y -> F32.is_nan (SFadd prec emax x y) = false.
Proof.
  destruct x as [sx|sx| |sx mx ex], y as [sy|sy| |sy my ey];
    simpl; trivial; try contradiction; try (intros; subst; now destruct s).
  - now destruct sx, sy.
  - intros _ _. apply binary_normalize_not_nan.
Qed.

(** Comparison is antisymmetric, so [x <= y] is [not (y < x)] away
    from NaN. *)
Lemma SFcompare_antisym (x y : spec_float) :
  SFcompare y x = option_map CompOpp (SFcompare x y).
Proof.
  destruct x as [sx|sx| |sx mx ex], y as [sy|sy| |sy my ey];
    simpl; trivial;
    try (now destruct sx); try (now destruct sy); try (now destruct sx, sy).
  f_equal. destruct sx, sy; simpl; trivial;
    rewrite (Z.compare_antisym ey ex);
    destruct (ey ?= ex); simpl; trivial;
    rewrite (Pos.compare_cont_antisym mx my Eq); simpl;
    now rewrite ?CompOpp_involutive.
Qed.

Lemma SFcompare_some (x y : spec_float) :
  F32.is_nan x = false -> F32.is_nan y = false -> SFcompare x y <> None.
Proof.
  destruct x as [sx|sx| |sx mx ex], y as [sy|sy| |sy my ey];
    simpl; discriminate.
Qed.

Lemma not_gtb_leb (x y : spec_float) :
  F32.is_nan x = false -> F32.is_nan y = false ->
  F32.gtb x y = false -> F32.leb x y = true.
Proof.
  intros Hx Hy. pose proof (SFcompare_some x y Hx Hy) as Hc.
  unfold F32.gtb, F32.leb, SFltb, SFleb. rewrite (SFcompare_antisym x y).
  destruct (SFcompare x y) as [[]|]; simpl; congruence.
Qed.

Lemma leb_not_gtb (x y : spec_float) :
  F32.leb x y = true -> F32.gtb x y = false.
Proof.
  unfold F32.gtb, F32.leb, SFltb, SFleb. rewrite (SFcompare_antisym x y).
  destruct (SFcompare x y) as [[]|]; simpl; congruence.
Qed.

Lemma same_eq (x y : spec_float) : same x y = true -> x = y.
Proof.
  destruct x as [a|a| |a m e], y as [b|b| |b m' e']; simpl; try discriminate;
    trivial.
  - now intros ->%Bool.eqb_prop.
  - now intros ->%Bool.eqb_prop.
  - intros [[->%Bool.eqb_prop ->%Pos.eqb_eq]%andb_true_iff ->%Z.eqb_eq]%andb_true_iff.
    reflexivity.
Qed.

Lemma SFmul_comm (x y : spec_float) : SFmul prec emax x y = SFmul prec emax y x.
Proof.
  destruct x as [sx|sx| |sx mx ex], y as [sy|sy| |sy my ey];
    simpl; trivial; try (now rewrite xorb_comm).
  now rewrite xorb_comm, Pos.mul_comm, Z.add_comm.
Qed.

Lemma SFadd_opp (x y : spec_float) :
  SFadd prec emax x (SFopp y) = SFsub prec emax x y.
Proof.
  destruct x as [sx|sx| |sx mx ex], y as [sy|sy| |sy my ey];
    simpl; trivial; try (now destruct sx, sy).
Qed.
End FloatFacts.

(** ** The ripple animator: facts about [drawInk] *)

Section DrawInkFacts.
Import widget layout.

Lemma quot_sign (d : Z) :
  Z.quot d time.Second <> 0 -> (Z.quot d time.Second <? 0) = (d <? 0).
Proof.
  unfold time.Second. intros H.
  destruct (Z.ltb_spec d 0) as [Hd|Hd].
  - apply Z.ltb_lt.
    assert (0 <= Z.quot (- d) 1000000000) by (apply Z.quot_pos; lia).
    rewrite Z.quot_opp_l in * by lia. lia.
  - apply Z.ltb_ge. apply Z.quot_pos; lia.
Qed.

Lemma rem_sign (d : Z) :
  Z.rem d time.Second <> 0 -> (Z.rem d time.Second <? 0) = (d <? 0).
Proof.
  unfold time.Second. intros H.
  destruct (Z.ltb_spec d 0) as [Hd|Hd].
  - apply Z.ltb_lt.
    assert (Z.rem d 1000000000 <= 0) by (apply Z.rem_nonpos; lia). lia.
  - apply Z.ltb_ge. apply Z.rem_nonneg; lia.
Qed.

Lemma binary_normalize_signed_as (prec emax : Z) (s : bool) (m e : Z) (sz : bool) :
  (m <> 0 -> (m <? 0) = s) -> signed s (binary_normalize prec emax m e sz).
Proof.
  intros H. destruct m as [|p|p]; simpl; trivial;
    rewrite <- H by discriminate; apply binary_round_signed.
Qed.

Lemma Seconds_not_nan (d : time.Duration) : F32.is_nan (time.Seconds d) = false.
Proof.
  unfold time.Seconds, F64.add, F64.div, F64.of_int.
  apply SFadd_signed_not_nan with (s := d <? 0).
  - apply binary_normalize_signed_as, quot_sign.
  - change (binary_normalize F64.prec F64.emax 1000000000 0 false)
      with (S754_finite false 8388608000000000 (-23)).
    apply SFdiv_signed, binary_normalize_signed_as, rem_sign.
Qed.

Lemma of_f64_not_nan (x : F64.t) :
  F32.is_nan x = false -> exists s, signed s (F32.of_f64 x).
Proof.
  destruct x as [s|s| |s m e]; simpl; try discriminate; intros _.
  - now exists s.
  - now exists s.
  - exists s. apply binary_normalize_signed_as. now destruct s.
Qed.

(** [t] is never a NaN, whatever the two instants are. *)
Lemma ink_t_not_nan (gtx : Context) (c : Press) :
  F32.is_nan (ink_t gtx c) = false.
Proof.
  unfold ink_t.
  destruct (of_f64_not_nan _ (Seconds_not_nan (time.Sub (Now gtx) (Start c))))
    as [s Hs].
  apply signed_not_nan with (s := s).
  unfold F32.div.
  change duration with (S754_finite false 13421773 (-25)).
  now apply SFdiv_signed.
Qed.

Lemma ink_clamped_not_nan (gtx : Context) (c : Press) :
  F32.is_nan (ink_clamped gtx c) = false.
Proof.
  unfold ink_clamped. destruct (F32.gtb _ _); trivial. apply ink_t_not_nan.
Qed.

(** After the clamp of line 203, [t > 1.0] is false. *)
Lemma ink_clamped_not_gt (gtx : Context) (c : Press) :
  F32.gtb (ink_clamped gtx c) F32.one = false.
Proof.
  unfold ink_clamped. destruct (F32.gtb (ink_t gtx c) F32.one) eqn:E; trivial.
Qed.

Lemma ink_clamped_le (gtx : Context) (c : Press) :
  F32.leb (ink_clamped gtx c) F32.one = true.
Proof.
  apply not_gtb_leb; trivial using ink_clamped_not_nan, ink_clamped_not_gt.
Qed.

(** [drawInk] only appends to the buffer. *)
Lemma drawInk_from_app (gtx : Context) (c : Press) (t : F32.t) (ops : Ops) :
  drawInk_from gtx c t ops = (tt, ops ++ emitted (drawInk_from gtx c t)).
Proof.
  unfold emitted, drawInk_from, bind, Add; simpl.
  now rewrite <- !app_assoc.
Qed.

Lemma drawInk_expired (gtx : Context) (c : Press) (ops : Ops) :
  expired gtx c = true -> drawInk gtx c ops = (tt, ops).
Proof.
  unfold expired, drawInk. intros [-> ->]%andb_true_iff. reflexivity.
Qed.

Lemma drawInk_live (gtx : Context) (c : Press) :
  expired gtx c = false -> drawInk gtx c = drawInk_from gtx c (ink_clamped gtx c).
Proof.
  unfold expired, drawInk, ink_clamped.
  destruct (F32.gtb (ink_t gtx c) F32.one); simpl; trivial.
  now intros ->.
Qed.

Lemma emitted_drawInk_expired (gtx : Context) (c : Press) :
  expired gtx c = true -> emitted (drawInk gtx c) = [].
Proof. intros H. unfold emitted. now rewrite drawInk_expired. Qed.

Lemma drawInk_app (gtx : Context) (c : Press) (ops : Ops) :
  drawInk gtx c ops = (tt, ops ++ emitted (drawInk gtx c)).
Proof.
  destruct (expired gtx c) eqn:E.
  - rewrite emitted_drawInk_expired, drawInk_expired by trivial.
    now rewrite app_nil_r.
  - rewrite drawInk_live by trivial. apply drawInk_from_app.
Qed.

(** The operations of one ripple, fold of lines 206-209 included. *)
Lemma emitted_drawInk_from (gtx : Context) (c : Press) (t : F32.t) :
  emitted (drawInk_from gtx c t) =
    let t2 := if F32.gtb t F32.one then F32.sub F32.two t else t in
    let bb := bezierBlend t2 in
    let size :=
      F32.mul (F32.mul (fmax (F32.of_int (image.X (Min (Constraints_ gtx))))
                             (F32.of_int (image.Y (Min (Constraints_ gtx)))))
                       two_sqrt2) bb in
    let alpha := F32.mul c0_7 bb in
    let rr := F32.mul size c0_5 in
    let bc := F32.to_byte (F32.mul (F32.mul alpha col) c0xff) in
    [ PushOp;
      ColorOp {| color.A := F32.to_byte (F32.mul alpha c0xff);
                 color.R := bc; color.G := bc; color.B := bc |};
      TransformOp (f32.Point_Add (f32.Point_Add f32.zeroPt (Position c))
                                 (f32.Pt (F32.neg rr) (F32.neg rr)));
      ClipOp {| clip.Rect_ := {| f32.Min := f32.zeroPt; f32.Max := f32.Pt size size |};
                clip.NE := rr; clip.NW := rr; clip.SE := rr; clip.SW := rr |};
      PaintOp {| f32.Min := f32.zeroPt; f32.Max := f32.Pt size size |};
      InvalidateOp; PopOp ].
Proof. reflexivity. Qed.
End DrawInkFacts.

(** Case split on the expiry of [c]: in the first goal [drawInk] has
    emitted nothing, in the second the ripple of the clamped [t]. *)
Ltac by_expiry gtx c :=
  let E := fresh "E" in
  destruct (expired gtx c) eqn:E;
  [ rewrite ?(emitted_drawInk_expired gtx c E)
  | rewrite ?(drawInk_live gtx c E); rewrite ?emitted_drawInk_from; cbv zeta ].

(** ** Expiry of a ripple *)

Section Expiry.
Import widget layout.

Lemma ink_t_age (gtx : Context) (c : Press) (d : Z) :
  Now gtx = Start c + d -> time.minDuration <= d <= time.maxDuration ->
  ink_t gtx c = t_of_age d.
Proof.
  intros E Hd. unfold ink_t, t_of_age, time.Sub. rewrite E.
  replace (Start c + d - Start c) with d by lia.
  destruct (Z.ltb_spec d time.minDuration); [lia|].
  destruct (Z.ltb_spec time.maxDuration d); [lia|]. reflexivity.
Qed.

Lemma drawInk_from_is_ripple (gtx : Context) (c : Press) (t : F32.t) :
  is_ripple (emitted (drawInk_from gtx c t)).
Proof. rewrite emitted_drawInk_from. cbv zeta. repeat eexists. Qed.

Lemma bezierBlend_one : bezierBlend F32.one = F32.one.
Proof. reflexivity. Qed.

Lemma bezierBlend_zero : bezierBlend F32.zero = F32.zero.
Proof. reflexivity. Qed.

(** Half way through, [t] is exactly 0.5 and so is the blend. *)
Example bezierBlend_half :
  t_of_age 200000000 = F32.of_dyadic 1 (-1) /\
  bezierBlend (t_of_age 200000000) = F32.of_dyadic 1 (-1).
Proof. split; reflexivity. Qed.

(** The comparison of line 198 is made on the float32 [t]: every age from
    399999992 ns to 400000020 ns rounds to [t = 1.0], which is not greater
    than 1.0; 400000021 ns is the first age with [t > 1.0]. *)
Remark expiry_threshold (d : Z) :
  (399999992 <= d <= 400000020 -> t_of_age d = F32.one) /\
  F32.ltb (t_of_age 399999991) F32.one = true /\
  F32.gtb (t_of_age 400000021) F32.one = true.
Proof.
  split; [|split; reflexivity].
  intros H.
  assert (Hall : forallb (fun n => same (t_of_age (399999992 + Z.of_nat n)) F32.one)
                         (seq 0 29) = true) by (vm_compute; reflexivity).
  rewrite forallb_forall in Hall.
  specialize (Hall (Z.to_nat (d - 399999992))).
  replace (399999992 + Z.of_nat (Z.to_nat (d - 399999992))) with d in Hall by lia.
  apply same_eq, Hall, in_seq. lia.
Qed.

End Expiry.

(** C1, as stated, fails twice.  A press whose [End] is unset and whose
    [Start] is the zero time is dropped one hundred seconds later: nothing
    is emitted.  And a held press is not at full bloom at every
    [now >= start]: at [now = start] the blend is 0. *)
Lemma held_press_counterexample :
  let c0 := press_at 0 0 in
  let c1 := press_at 1000 0 in
  (time.IsZero (widget.End c0) = true /\
   widget.Start c0 <= layout.Now (gtx_at (100 * time.Second) 100 40) /\
   expired (gtx_at (100 * time.Second) 100 40) c0 = true /\
   emitted (drawInk (gtx_at (100 * time.Second) 100 40) c0) = []) /\
  (time.IsZero (widget.End c1) = true /\
   widget.Start c1 <= layout.Now (gtx_at 1000 100 40) /\
   bezierBlend (ink_t2 (ink_clamped (gtx_at 1000 100 40) c1)) = F32.zero /\
   bezierBlend (ink_t2 (ink_clamped (gtx_at 1000 100 40) c1)) <> F32.one).
Proof.
  cbv zeta. repeat split; try reflexivity; try (vm_compute; discriminate).
Qed.

(** C1 (amended): a press whose [End] is unset and whose [Start] is not the
    zero time is never expired, at any [now]: [drawInk] emits its ripple, with
    [t] clamped to 1.  Whenever [t > 1], and so at [now = start + 100s], the
    clamped [t] is 1 and [bezierBlend] is 1. *)
Theorem held_press_never_expires (gtx : layout.Context) (c : widget.Press) :
  time.IsZero (widget.End c) = true ->
  time.IsZero (widget.Start c) = false ->
  expired gtx c = false /\
  drawInk gtx c = drawInk_from gtx c (ink_clamped gtx c) /\
  is_ripple (emitted (drawInk gtx c)) /\
  (F32.gtb (ink_t gtx c) F32.one = true ->
   ink_clamped gtx c = F32.one /\
   bezierBlend (ink_t2 (ink_clamped gtx c)) = F32.one) /\
  (layout.Now gtx = widget.Start c + 100 * time.Second ->
   F32.gtb (ink_t gtx c) F32.one = true).
Proof.
  intros HE HS.
  assert (Hx : expired gtx c = false).
  { unfold expired. rewrite HE, HS. simpl. apply andb_false_r. }
  split; [exact Hx|]. split; [now apply drawInk_live|].
  split; [rewrite drawInk_live by trivial; apply drawInk_from_is_ripple|].
  split.
  - intros Ht. unfold ink_clamped. rewrite Ht. split; reflexivity.
  - intros Hn. rewrite (ink_t_age gtx c _ Hn) by (vm_compute; split; discriminate).
    reflexivity.
Qed.

Lemma held_press_never_expires_witness :
  let gtx := gtx_at (1000 + 100 * time.Second) 100 40 in
  let c := press_at 1000 0 in
  expired gtx c = false /\
  drawInk gtx c = drawInk_from gtx c (ink_clamped gtx c) /\
  is_ripple (emitted (drawInk gtx c)) /\
  (F32.gtb (ink_t gtx c) F32.one = true ->
   ink_clamped gtx c = F32.one /\
   bezierBlend (ink_t2 (ink_clamped gtx c)) = F32.one) /\
  (layout.Now gtx = widget.Start c + 100 * time.Second ->
   F32.gtb (ink_t gtx c) F32.one = true).
Proof.
  apply (held_press_never_expires (gtx_at (1000 + 100 * time.Second) 100 40)
           (press_at 1000 0)); reflexivity.
Defined.

(** C2: for a released press ([End] set), [t > 1.0] makes [drawInk] return
    at once, leaving the buffer as it was: no draw, clip, transform or
    invalidate operation.  For [t <= 1.0] it emits the ripple.  At
    [now = start + 1.01 * 0.4s] the press is expired. *)
Theorem released_press_expires (gtx : layout.Context) (c : widget.Press) :
  time.IsZero (widget.End c) = false ->
  (F32.gtb (ink_t gtx c) F32.one = true ->
   expired gtx c = true /\ forall ops, drawInk gtx c ops = (tt, ops)) /\
  (F32.leb (ink_t gtx c) F32.one = true ->
   expired gtx c = false /\
   drawInk gtx c = drawInk_from gtx c (ink_t gtx c) /\
   is_ripple (emitted (drawInk gtx c))) /\
  (layout.Now gtx = widget.Start c + 404000000 ->
   F32.gtb (ink_t gtx c) F32.one = true).
Proof.
  intros HE. split; [|split].
  - intros Ht.
    assert (Hx : expired gtx c = true).
    { unfold expired. rewrite Ht, HE. simpl. apply orb_true_r. }
    split; [exact Hx|]. intros ops. now apply drawInk_expired.
  - intros Ht. apply leb_not_gtb in Ht.
    assert (Hx : expired gtx c = false) by (unfold expired; now rewrite Ht).
    split; [exact Hx|].
    assert (Hd : drawInk gtx c = drawInk_from gtx c (ink_t gtx c)).
    { rewrite drawInk_live by trivial. unfold ink_clamped. now rewrite Ht. }
    split; [exact Hd|]. rewrite Hd. apply drawInk_from_is_ripple.
  - intros Hn. rewrite (ink_t_age gtx c _ Hn) by (vm_compute; split; discriminate).
    reflexivity.
Qed.

Lemma released_press_expires_witness :
  let gtx := gtx_at (1000 + 404000000) 100 40 in
  let c := press_at 1000 300000000 in
  (F32.gtb (ink_t gtx c) F32.one = true ->
   expired gtx c = true /\ forall ops, drawInk gtx c ops = (tt, ops)) /\
  (F32.leb (ink_t gtx c) F32.one = true ->
   expired gtx c = false /\
   drawInk gtx c = drawInk_from gtx c (ink_t gtx c) /\
   is_ripple (emitted (drawInk gtx c))) /\
  (layout.Now gtx = widget.Start c + 404000000 ->
   F32.gtb (ink_t gtx c) F32.one = true).
Proof.
  apply (released_press_expires (gtx_at (1000 + 404000000) 100 40)
           (press_at 1000 300000000)); reflexivity.
Defined.

(** C10: a press whose [Start] is the zero time is expired whenever
    [t > 1.0], whether or not its [End] is set; [drawInk] emits nothing. *)
Theorem zero_start_expires (gtx : layout.Context) (c : widget.Press) :
  time.IsZero (widget.Start c) = true ->
  F32.gtb (ink_t gtx c) F32.one = true ->
  expired gtx c = true /\
  (forall ops, drawInk gtx c ops = (tt, ops)) /\
  emitted (drawInk gtx c) = [].
Proof.
  intros HS Ht.
  assert (Hx : expired gtx c = true) by (unfold expired; now rewrite Ht, HS).
  split; [exact Hx|]. split.
  - intros ops. now apply drawInk_expired.
  - unfold emitted. now rewrite drawInk_expired.
Qed.

Lemma zero_start_expires_witness :
  let gtx := gtx_at time.Second 100 40 in
  let c := press_at time.zero 0 in
  time.IsZero (widget.End c) = true /\
  expired gtx c = true /\
  (forall ops, drawInk gtx c ops = (tt, ops)) /\
  emitted (drawInk gtx c) = [].
Proof.
  split; [reflexivity|].
  apply (zero_start_expires (gtx_at time.Second 100 40) (press_at time.zero 0));
    reflexivity.
Defined.

(** ** The visual of an unexpired ripple *)

Lemma Point_Add_neg (p : f32.Point) (a b : F32.t) :
  f32.Point_Add p (f32.Pt (F32.neg a) (F32.neg b)) = f32.Point_Sub p (f32.Pt a b).
Proof.
  unfold f32.Point_Add, f32.Point_Sub, F32.add, F32.sub, F32.neg; simpl.
  now rewrite !SFadd_opp.
Qed.

Lemma F32_mul_comm (a b : F32.t) : F32.mul a b = F32.mul b a.
Proof. apply SFmul_comm. Qed.

(** Adding a point to the zero offset leaves it as it is, a negative zero
    apart (which becomes a positive zero). *)
Lemma add_zero_l (x : F32.t) :
  x <> S754_zero true -> F32.add F32.zero x = x.
Proof. destruct x as [[]| | |]; simpl; trivial; now intros []. Qed.

(** C3: for every unexpired press and every [now], with [bezierBlend] taken
    at the clamped [t]: the side of the drawn square is
    [2*sqrt(2) * max(Min.X, Min.Y) * bezierBlend]; alpha is
    [0.7 * bezierBlend] and the R, G and B channels are [alpha * 0.8], all
    scaled by 255 and cut to bytes; the square [(0,0)-(size,size)], clipped to
    corner radii of half its side, is translated to the press position minus
    half the size in each axis. *)
Theorem ripple_visual (gtx : layout.Context) (c : widget.Press) :
  expired gtx c = false ->
  let bb := bezierBlend (ink_clamped gtx c) in
  let m := fmax (F32.of_int (image.X (layout.Min (layout.Constraints_ gtx))))
                (F32.of_int (image.Y (layout.Min (layout.Constraints_ gtx)))) in
  let size := F32.mul (F32.mul two_sqrt2 m) bb in
  let alpha := F32.mul c0_7 bb in
  let rgb := F32.to_byte (F32.mul (F32.mul alpha col) c0xff) in
  let half := F32.mul size c0_5 in
  let square := {| f32.Min := f32.zeroPt; f32.Max := f32.Pt size size |} in
  emitted (drawInk gtx c) =
    [ PushOp;
      ColorOp {| color.A := F32.to_byte (F32.mul alpha c0xff);
                 color.R := rgb; color.G := rgb; color.B := rgb |};
      TransformOp (f32.Point_Sub (f32.Point_Add f32.zeroPt (widget.Position c))
                                 (f32.Pt half half));
      ClipOp {| clip.Rect_ := square;
                clip.NE := half; clip.NW := half; clip.SE := half; clip.SW := half |};
      PaintOp square;
      InvalidateOp; PopOp ].
Proof.
  intros Hx. cbv zeta.
  rewrite drawInk_live by trivial.
  rewrite emitted_drawInk_from. cbv zeta.
  rewrite ink_clamped_not_gt, Point_Add_neg.
  now rewrite (F32_mul_comm two_sqrt2).
Qed.

Lemma ripple_visual_witness :
  emitted (drawInk (gtx_at (1000 + 200000000) 100 40) (press_at 1000 0)) =
    [ PushOp;
      ColorOp {| color.A := 89; color.R := 71; color.G := 71; color.B := 71 |};
      TransformOp (f32.Pt (F32.neg (F32.of_dyadic 15914940 (-18)))
                          (F32.neg (F32.of_dyadic 13293500 (-18))));
      ClipOp {| clip.Rect_ :=
                  {| f32.Min := f32.zeroPt;
                     f32.Max := f32.Pt (F32.of_dyadic 9268190 (-16))
                                       (F32.of_dyadic 9268190 (-16)) |};
                clip.NE := F32.of_dyadic 9268190 (-17);
                clip.NW := F32.of_dyadic 9268190 (-17);
                clip.SE := F32.of_dyadic 9268190 (-17);
                clip.SW := F32.of_dyadic 9268190 (-17) |};
      PaintOp {| f32.Min := f32.zeroPt;
                 f32.Max := f32.Pt (F32.of_dyadic 9268190 (-16))
                                   (F32.of_dyadic 9268190 (-16)) |};
      InvalidateOp; PopOp ].
Proof.
  rewrite (ripple_visual (gtx_at (1000 + 200000000) 100 40) (press_at 1000 0))
    by reflexivity.
  reflexivity.
Defined.

(** ** Redraw requests *)

Lemma invalidates_app (a b : Ops) :
  invalidates (a ++ b) = (invalidates a + invalidates b)%nat.
Proof. unfold invalidates. now rewrite filter_app, length_app. Qed.

Lemma forEach_drawInk (gtx : layout.Context) (h : list widget.Press) :
  forall ops,
    forEach (drawInk gtx) h ops =
      (tt, ops ++ flat_map (fun c => emitted (drawInk gtx c)) h).
Proof.
  induction h as [|c h IH]; intros ops; simpl.
  - unfold ret. now rewrite app_nil_r.
  - unfold bind. rewrite drawInk_app, IH. now rewrite app_assoc.
Qed.

Lemma emitted_forEach_drawInk (gtx : layout.Context) (h : list widget.Press) :
  emitted (forEach (drawInk gtx) h) = flat_map (fun c => emitted (drawInk gtx c)) h.
Proof. unfold emitted. now rewrite forEach_drawInk. Qed.

Lemma invalidates_drawInk (gtx : layout.Context) (c : widget.Press) :
  invalidates (emitted (drawInk gtx c)) = if expired gtx c then 0%nat else 1%nat.
Proof. by_expiry gtx c; reflexivity. Qed.

(** C7: [drawInk] adds an [InvalidateOp] to the buffer if and only if the
    press is not expired, and then exactly one.  Over a history, the loop of
    lines 138-140 adds as many as there are unexpired presses: at least one
    when a ripple is drawn (a held press included), none when every press is
    expired. *)
Theorem invalidate_iff_not_expired (gtx : layout.Context) (c : widget.Press) :
  (In InvalidateOp (emitted (drawInk gtx c)) <-> expired gtx c = false) /\
  (forall ops,
      invalidates (snd (drawInk gtx c ops)) =
        (invalidates ops + if expired gtx c then 0 else 1)%nat) /\
  (forall h,
      invalidates (emitted (forEach (drawInk gtx) h)) =
        length (filter (fun c => negb (expired gtx c)) h)).
Proof.
  split; [|split].
  - by_expiry gtx c.
    + split; [contradiction|discriminate].
    + split; trivial. intros _. simpl. tauto.
  - intros ops. rewrite drawInk_app. simpl.
    now rewrite invalidates_app, invalidates_drawInk.
  - intros h. rewrite emitted_forEach_drawInk.
    induction h as [|a h IH]; simpl; trivial.
    rewrite invalidates_app, invalidates_drawInk, IH.
    now destruct (expired gtx a).
Qed.

(** ** The ping-pong fold *)

(** C9: the body of [drawInk] after the expiry check is only ever run with
    the clamped [t]; that [t] is not a NaN and is at most 1, so the test
    [t2 > 1.0] of line 207 is false, the fold [t2 = 2.0 - t2] is never taken,
    and [bezierBlend] is computed from [t2 = t <= 1]. *)
Theorem fold_branch_unreachable (gtx : layout.Context) (c : widget.Press) :
  drawInk gtx c =
    (if expired gtx c then ret tt else drawInk_from gtx c (ink_clamped gtx c)) /\
  F32.is_nan (ink_clamped gtx c) = false /\
  F32.leb (ink_clamped gtx c) F32.one = true /\
  F32.gtb (ink_clamped gtx c) F32.one = false /\
  ink_t2 (ink_clamped gtx c) = ink_clamped gtx c.
Proof.
  split; [|split; [|split; [|split]]].
  - destruct (expired gtx c) eqn:E.
    + unfold expired in E. apply andb_true_iff in E as [E1 E2].
      unfold drawInk. now rewrite E1, E2.
    + now apply drawInk_live.
  - apply ink_clamped_not_nan.
  - apply ink_clamped_le.
  - apply ink_clamped_not_gt.
  - unfold ink_t2. now rewrite ink_clamped_not_gt.
Qed.

(** ** Scoping of the state a ripple sets *)

Section Scoped.
Variable G : Type.
Variable apply : Op -> G -> G.
Local Abbreviation run := (run apply).

Lemma run_app (a b : Ops) (st : G * list G) :
  run (a ++ b) st = run b (run a st).
Proof. apply fold_left_app. Qed.

Lemma run_drawInk (gtx : layout.Context) (c : widget.Press) (st : G * list G) :
  run (emitted (drawInk gtx c)) st = st.
Proof. destruct st as [g stk]. by_expiry gtx c; reflexivity. Qed.

(** C6: what [drawInk] emits is either nothing (the early return, before
    the push) or one [PushOp], operations that are neither push nor pop, and
    one [PopOp] last: the deferred pop runs on the only exit after the
    push.  So the drawing state and the stack are after a ripple what they
    were before it, and whatever follows in the frame (later ripples, the
    content layer, the hit-test layer) runs exactly as if the ripple, or the
    whole history of ripples, had set nothing. *)
Theorem ripple_state_is_scoped (gtx : layout.Context) (c : widget.Press) :
  (emitted (drawInk gtx c) = [] \/
   exists body, emitted (drawInk gtx c) = PushOp :: body ++ [PopOp] /\
                forallb (fun o => negb (is_stack_op o)) body = true) /\
  (forall st, run (emitted (drawInk gtx c)) st = st) /\
  (forall rest st, run (emitted (drawInk gtx c) ++ rest) st = run rest st) /\
  (forall h rest st,
      run (emitted (forEach (drawInk gtx) h) ++ rest) st = run rest st).
Proof.
  split; [|split; [|split]].
  - by_expiry gtx c.
    + now left.
    + right. eexists [_; _; _; _; _]. split; reflexivity.
  - apply run_drawInk.
  - intros rest st. now rewrite run_app, run_drawInk.
  - intros h rest st. rewrite run_app. f_equal.
    rewrite emitted_forEach_drawInk.
    induction h as [|a h IH]; simpl; trivial.
    now rewrite run_app, run_drawInk.
Qed.
End Scoped.

(** ** The easing polynomial *)

Lemma blend_exact_monotone (x y : Q) :
  (0 <= x)%Q -> (x <= y)%Q -> (y <= 1)%Q -> (blend_exact x <= blend_exact y)%Q.
Proof.
  intros H0 Hxy H1. unfold blend_exact.
  assert (Hd : (0 <= (y - x) * (2 * (x * (1 - x)) + 2 * (y * (1 - y))
                                + x * (1 - y) + y * (1 - x)))%Q).
  { apply Qmult_le_0_compat; [lra|].
    assert (0 <= x * (1 - x))%Q by (apply Qmult_le_0_compat; lra).
    assert (0 <= y * (1 - y))%Q by (apply Qmult_le_0_compat; lra).
    assert (0 <= x * (1 - y))%Q by (apply Qmult_le_0_compat; lra).
    assert (0 <= y * (1 - x))%Q by (apply Qmult_le_0_compat; lra).
    lra. }
  apply Qle_minus_iff.
  eapply Qle_trans; [exact Hd|]. apply Qle_lteq. right. ring.
Qed.

Lemma grid_points_spec (k : Z) : 0 <= k <= 128 -> In k grid_points.
Proof.
  intros H. unfold grid_points. apply in_map_iff.
  exists (Z.to_nat k). split; [lia|]. apply in_seq. lia.
Qed.

(** On the multiples of 1/128 no operation of line 210 rounds. *)
Lemma grid_all :
  forallb (fun j => forallb (fun k => implb (j <=? k) (grid_check j k)) grid_points)
          grid_points = true.
Proof. vm_compute. reflexivity. Qed.

Lemma grid_monotone (j k : Z) :
  0 <= j -> j <= k -> k <= 128 -> grid_check j k = true.
Proof.
  intros H0 Hjk H1.
  pose proof grid_all as H. rewrite forallb_forall in H.
  specialize (H j (grid_points_spec j ltac:(lia))).
  rewrite forallb_forall in H.
  specialize (H k (grid_points_spec k ltac:(lia))).
  apply Z.leb_le in Hjk. now rewrite Hjk in H.
Qed.

(** C4, as stated, fails on the float32 evaluation of line 210: between
    the two neighbouring floats [16774319 * 2^-24 < 16774320 * 2^-24] of
    (0, 1] the computed blend goes down, from [1 - 2^-24] to [1 - 2^-23].
    [drawInk] reaches such values: a press aged 399930930 ns has a larger
    blend than ten nanoseconds later. *)
Lemma bezierBlend_not_monotone :
  let a := F32.of_dyadic 16774319 (-24) in
  let b := F32.of_dyadic 16774320 (-24) in
  (F32.ltb F32.zero a = true /\ F32.ltb a b = true /\ F32.leb b F32.one = true /\
   bezierBlend a = F32.of_dyadic 16777215 (-24) /\
   bezierBlend b = F32.of_dyadic 16777214 (-24) /\
   F32.leb (bezierBlend a) (bezierBlend b) = false) /\
  (F32.leb (t_of_age 399930940) F32.one = true /\
   F32.ltb (bezierBlend (t_of_age 399930940)) (bezierBlend (t_of_age 399930930)) = true).
Proof. cbv zeta. repeat split; vm_compute; reflexivity. Qed.

(** C4 (amended): as [drawInk] computes it, [bezierBlend 0 = 0] and
    [bezierBlend 1 = 1].  The polynomial [t2^2 * (3 - 2*t2)] is monotonically
    non-decreasing on [0, 1] in exact arithmetic; its float32 evaluation
    equals the exact value, and is therefore monotone, on the multiples of
    1/128 in [0, 1]. *)
Theorem bezierBlend_endpoints_monotone (x y : Q) (j k : Z) :
  (0 <= x)%Q -> (x <= y)%Q -> (y <= 1)%Q ->
  0 <= j -> j <= k -> k <= 128 ->
  bezierBlend F32.zero = F32.zero /\
  bezierBlend F32.one = F32.one /\
  (blend_exact x <= blend_exact y)%Q /\
  (F32.to_Q (bezierBlend (grid j)) == blend_exact (Qmake j 128))%Q /\
  F32.leb (bezierBlend (grid j)) (bezierBlend (grid k)) = true.
Proof.
  intros Hx Hxy Hy Hj Hjk Hk.
  split; [apply bezierBlend_zero|]. split; [apply bezierBlend_one|].
  split; [now apply blend_exact_monotone|].
  pose proof (grid_monotone j k Hj Hjk Hk) as H.
  unfold grid_check in H. apply andb_true_iff in H as [H1 H2].
  split; [now apply Qeq_bool_iff|exact H2].
Qed.

Lemma bezierBlend_endpoints_monotone_witness :
  bezierBlend F32.zero = F32.zero /\
  bezierBlend F32.one = F32.one /\
  (blend_exact (1 # 4) <= blend_exact (1 # 2))%Q /\
  (F32.to_Q (bezierBlend (grid 64)) == blend_exact (Qmake 64 128))%Q /\
  F32.leb (bezierBlend (grid 64)) (bezierBlend (grid 96)) = true.
Proof.
  apply (bezierBlend_endpoints_monotone (1 # 4) (1 # 2) 64 96);
    try lia; vm_compute; discriminate.
Defined.

(** ** The layers of [ButtonLayoutStyle.Layout] *)

Section LayoutFacts.
Import widget layout material.
Variable mulAlpha : color.RGBA -> Z -> color.RGBA.
Variable Center_Layout : Context -> Widget -> M Dimensions.
Variable Inset_Layout : Inset -> Context -> Widget -> M Dimensions.
Local Abbreviation background_layer := (background_layer mulAlpha).
Local Abbreviation ButtonLayoutStyle_Layout :=
  (ButtonLayoutStyle_Layout mulAlpha Center_Layout Inset_Layout).

Lemma forEach_Add_all {A} (f : A -> Ops) (l : list A) :
  forall ops, forEach (fun r => Add_all (f r)) l ops = (tt, ops ++ flat_map f l).
Proof.
  induction l as [|a l IH]; intros ops; simpl.
  - unfold ret. now rewrite app_nil_r.
  - unfold bind, Add_all at 1. rewrite IH. now rewrite app_assoc.
Qed.

(** The stack emits one scope per child, in the order of the children. *)
Lemma emitted_Stack_Layout (a : Direction) (gtx : Context) (children : list StackChild) :
  emitted (Stack_Layout a gtx children) =
    flat_map (fun r => scope (align a (stack_size (lay_out gtx children)) (Size (fst r)))
                             (snd r))
             (lay_out gtx children).
Proof.
  unfold emitted, Stack_Layout, bind. now rewrite forEach_Add_all.
Qed.

Lemma emitted_background_layer (b : ButtonLayoutStyle) (gtx : Context) :
  snd (record (background_layer b gtx)) =
    let rr := F32.of_int (Px gtx (CornerRadius b)) in
    ClipOp {| clip.Rect_ := {| f32.Min := f32.zeroPt; f32.Max := FPt (Min (Constraints_ gtx)) |};
              clip.NE := rr; clip.NW := rr; clip.SE := rr; clip.SW := rr |}
    :: ColorOp (match Queue gtx with
                | None => mulAlpha (Background b) 150
                | Some _ => Background b
                end)
    :: PaintOp {| f32.Min := f32.zeroPt; f32.Max := FPt (Min (Constraints_ gtx)) |}
    :: flat_map (fun c => emitted (drawInk gtx c)) (History (Button b)).
Proof.
  unfold record, material.background_layer, fill, bind, Add, ret; simpl.
  rewrite forEach_drawInk. reflexivity.
Qed.

(** C5: in every frame [ButtonLayoutStyle.Layout] hands the stack exactly
    three children, and the buffer receives exactly three scoped layers in
    that order.  First the background: the rounded-rectangle clip, the
    background fill, then what [drawInk] emits for each entry of the history,
    in the order of the history (nothing for an expired entry).  Then the
    content: the supplied widget inside the inset inside the centering, laid
    out with the minimum size of the frame put back.  Last the hit-test layer,
    the input registration of the clickable, with no clip, color or paint
    operation. *)
Theorem layout_three_layers (b : ButtonLayoutStyle) (gtx : Context) (w : Widget) :
  let content :=
    record (Center_Layout (with_Min gtx (Min (Constraints_ gtx)))
              (fun g => Inset_Layout (Inset_ b) g w)) in
  let egtx := with_Min gtx (Point_max image.zeroPt (Size (fst content))) in
  let rr := F32.of_int (Px egtx (CornerRadius b)) in
  let area := {| f32.Min := f32.zeroPt; f32.Max := FPt (Min (Constraints_ egtx)) |} in
  let background :=
    ClipOp {| clip.Rect_ := area;
              clip.NE := rr; clip.NW := rr; clip.SE := rr; clip.SW := rr |}
    :: ColorOp (match Queue gtx with
                | None => mulAlpha (Background b) 150
                | Some _ => Background b
                end)
    :: PaintOp area
    :: flat_map (fun c => emitted (drawInk egtx c)) (History (Button b)) in
  let hit :=
    [ PushOp;
      PointerRectOp {| image.Min := image.zeroPt; image.Max := Min (Constraints_ egtx) |};
      ClickOp; PopOp ] in
  ButtonLayoutStyle_Layout b gtx w =
    Stack_Layout Center gtx
      [ Expanded (background_layer b);
        Stacked (fun g => Center_Layout (with_Min g (Min (Constraints_ gtx)))
                            (fun g' => Inset_Layout (Inset_ b) g' w));
        Expanded (Clickable_Layout (Button b)) ] /\
  (exists p1 p2 p3,
      emitted (ButtonLayoutStyle_Layout b gtx w) =
        scope p1 background ++ scope p2 (snd content) ++ scope p3 hit) /\
  existsb paints hit = false.
Proof.
  cbv zeta. split; [reflexivity|]. split; [|reflexivity].
  unfold material.ButtonLayoutStyle_Layout. rewrite emitted_Stack_Layout.
  set (sz := stack_size _).
  unfold lay_out, stacked_size.
  cbn [map flat_map fold_left expanded child Expanded Stacked].
  rewrite emitted_background_layer. cbv zeta. rewrite app_nil_r.
  do 3 eexists. reflexivity.
Qed.
End LayoutFacts.

(** ** The vertex stage *)

Section VertFacts.
Import String blit.
Open Scope string_scope.
Variable T : Type.
Variable mul add : T -> T -> T.
Variable one : T.
Local Abbreviation main := (main mul add one).

(** C8: the uniform block has its members in the order [z], [scale],
    [offset], [uvScale], [uvOffset], that is the nine floats depth, scale.xy,
    offset.xy, uvScale.xy, uvOffset.xy; and for every input vertex the clip
    position is [pos * scale + offset] with depth [z] and w = 1, and the
    output uv is [uv * uvScale + uvOffset]. *)
Theorem vertex_stage_contract (b : Block T) (pos uv : vec2 T) :
  map fst Block_members = ["z"; "scale"; "offset"; "uvScale"; "uvOffset"] /\
  Block_components =
    ["z"; "scale.x"; "scale.y"; "offset.x"; "offset.y";
     "uvScale.x"; "uvScale.y"; "uvOffset.x"; "uvOffset.y"] /\
  List.length (Block_values b) = List.length Block_components /\
  fst (main b pos uv) =
    Vec4 (add (mul (x pos) (x (scale b))) (x (offset b)))
         (add (mul (y pos) (y (scale b))) (y (offset b)))
         (z b) one /\
  snd (main b pos uv) =
    Vec2 (add (mul (x uv) (x (uvScale b))) (x (uvOffset b)))
         (add (mul (y uv) (y (uvScale b))) (y (uvOffset b))).
Proof.
  split; [reflexivity|]. split; [reflexivity|]. split; [reflexivity|].
  unfold blit.main, vadd, vmul; simpl. split; reflexivity.
Qed.
End VertFacts.

(** The far corner of the unit quad, scaled by 2 and moved by -1, lands on
    the corner (1, 1) of clip space. *)
Example main_unit_quad :
  let v := @blit.Vec2 F32.t in
  let b := {| blit.z := F32.zero; blit.scale := v F32.two F32.two;
              blit.offset := v (F32.neg F32.one) (F32.neg F32.one);
              blit.uvScale := v F32.one F32.one;
              blit.uvOffset := v F32.zero F32.zero |} in
  blit.main F32.mul F32.add F32.one b (v F32.one F32.one) (v F32.one F32.one) =
    (blit.Vec4 F32.one F32.one F32.zero F32.one, v F32.one F32.one).
Proof. vm_compute. reflexivity. Qed.

(** * Further facts about [drawInk] *)

Section SignFacts.
Variables prec emax : Z.

Lemma SFadd_signed (s : bool) (x y : spec_float) :
  signed s x -> signed s y -> signed s (SFadd prec emax x y).
Proof.
  destruct x as [sx|sx| |sx mx ex], y as [sy|sy| |sy my ey];
    simpl; trivial; try contradiction.
  - intros _ _. now destruct sx, sy.
  - intros -> ->. now destruct s.
  - intros -> ->. apply binary_normalize_signed_as. intros _.
    destruct s; simpl; [apply Z.ltb_lt|apply Z.ltb_ge]; lia.
Qed.

Lemma signed_true_not_gt_one (x : spec_float) :
  signed true x -> F32.gtb x F32.one = false /\ F32.leb x F32.zero = true.
Proof. destruct x as [[]|[]| |[] m e]; simpl; intros H; try discriminate H; now try contradiction. Qed.

Lemma signed_false_nonneg (x : spec_float) :
  signed false x -> F32.leb F32.zero x = true.
Proof. destruct x as [[]|[]| |[] m e]; simpl; intros H; try discriminate H; now try contradiction. Qed.
End SignFacts.

Section AgeFacts.
Import widget layout.

Lemma of_f64_signed (s : bool) (x : F64.t) : signed s x -> signed s (F32.of_f64 x).
Proof.
  destruct x as [sx|sx| |sx m e]; simpl; trivial.
  intros ->. apply binary_normalize_signed_as. now destruct s.
Qed.

Lemma Seconds_signed (d : time.Duration) : signed (d <? 0) (time.Seconds d).
Proof.
  unfold time.Seconds, F64.add, F64.div, F64.of_int.
  apply SFadd_signed.
  - apply binary_normalize_signed_as, quot_sign.
  - change (binary_normalize F64.prec F64.emax 1000000000 0 false)
      with (S754_finite false 8388608000000000 (-23)).
    apply SFdiv_signed, binary_normalize_signed_as, rem_sign.
Qed.

(** The sign of [t] is the sign of [now - start]. *)
Lemma ink_t_signed (gtx : Context) (c : Press) :
  signed (Now gtx <? Start c) (ink_t gtx c).
Proof.
  assert (E : (Now gtx <? Start c) = (time.Sub (Now gtx) (Start c) <? 0)).
  { unfold time.Sub, time.minDuration, time.maxDuration.
    destruct (Z.ltb_spec (Now gtx - Start c) (- 2 ^ 63));
      [|destruct (Z.ltb_spec (2 ^ 63 - 1) (Now gtx - Start c))];
      destruct (Z.ltb_spec (Now gtx) (Start c)); simpl; trivial;
      try lia; symmetry; (apply Z.ltb_lt || apply Z.ltb_ge); lia. }
  rewrite E. unfold ink_t, F32.div.
  change duration with (S754_finite false 13421773 (-25)).
  apply SFdiv_signed, of_f64_signed, Seconds_signed.
Qed.
End AgeFacts.

(** X1: [drawInk] only appends to the operation buffer.  Whatever the
    buffer holds is kept as it is, in front; what is added does not depend on
    the buffer, and is either nothing or seven operations. *)
Theorem drawInk_appends (gtx : layout.Context) (c : widget.Press) (ops : Ops) :
  snd (drawInk gtx c ops) = ops ++ emitted (drawInk gtx c) /\
  firstn (length ops) (snd (drawInk gtx c ops)) = ops /\
  (length (emitted (drawInk gtx c)) = if expired gtx c then 0 else 7)%nat.
Proof.
  rewrite drawInk_app. simpl. split; [reflexivity|]. split.
  - rewrite firstn_app, Nat.sub_diag, firstn_all. simpl. apply app_nil_r.
  - by_expiry gtx c; reflexivity.
Qed.

(** X2: what [drawInk] does depends on the frame and the press only through
    the minimum constraints, the saturated difference [now - start], the
    position of the press, and whether [Start] and [End] are the zero time.
    The event queue, the maximum constraints, the pixel metric, the value of
    a set [End] and the absolute time play no part. *)
Theorem drawInk_depends_only_on (gtx gtx' : layout.Context) (c c' : widget.Press) :
  layout.Min (layout.Constraints_ gtx) = layout.Min (layout.Constraints_ gtx') ->
  time.Sub (layout.Now gtx) (widget.Start c) =
    time.Sub (layout.Now gtx') (widget.Start c') ->
  widget.Position c = widget.Position c' ->
  time.IsZero (widget.Start c) = time.IsZero (widget.Start c') ->
  time.IsZero (widget.End c) = time.IsZero (widget.End c') ->
  drawInk gtx c = drawInk gtx' c'.
Proof.
  intros HM HA HP HS HE.
  unfold drawInk, ink_t, drawInk_from. now rewrite HM, HA, HP, HS, HE.
Qed.

Lemma drawInk_depends_only_on_witness :
  let gtx := gtx_at (5000 + 200000000) 100 40 in
  let gtx' := {| layout.Constraints_ :=
                   {| layout.Min := image.Pt 100 40; layout.Max := image.Pt 9 9 |};
                 layout.Queue := None;
                 layout.Now := 77000 + 200000000;
                 layout.Px := fun _ => 1 |} in
  drawInk gtx (press_at 5000 6000) = drawInk gtx' (press_at 77000 99000).
Proof.
  apply (drawInk_depends_only_on
           (gtx_at (5000 + 200000000) 100 40)
           {| layout.Constraints_ :=
                {| layout.Min := image.Pt 100 40; layout.Max := image.Pt 9 9 |};
              layout.Queue := None;
              layout.Now := 77000 + 200000000;
              layout.Px := fun _ => 1 |}
           (press_at 5000 6000) (press_at 77000 99000)); reflexivity.
Defined.

(** X3: a press whose [Start] is not before [now] (a start in the future,
    or this very instant) has [t <= 0]; it is never expired, set [End] or
    not, and its ripple is drawn. *)
Theorem future_start_never_expires (gtx : layout.Context) (c : widget.Press) :
  layout.Now gtx <= widget.Start c ->
  F32.leb (ink_t gtx c) F32.zero = true /\
  expired gtx c = false /\
  is_ripple (emitted (drawInk gtx c)).
Proof.
  intros H. pose proof (ink_t_signed gtx c) as Hs.
  destruct (Z.ltb_spec (layout.Now gtx) (widget.Start c)) as [Hlt|Hge].
  - apply signed_true_not_gt_one in Hs as [Hg Hl].
    assert (Hx : expired gtx c = false) by (unfold expired; now rewrite Hg).
    repeat split; trivial.
    rewrite drawInk_live by trivial. apply drawInk_from_is_ripple.
  - assert (E : layout.Now gtx = widget.Start c + 0) by lia.
    rewrite (ink_t_age gtx c 0 E) in * by (vm_compute; split; discriminate).
    assert (Hx : expired gtx c = false)
      by (unfold expired; now rewrite (ink_t_age gtx c 0 E)
            by (vm_compute; split; discriminate)).
    repeat split; trivial.
    rewrite drawInk_live by trivial. apply drawInk_from_is_ripple.
Qed.

Lemma future_start_never_expires_witness :
  let gtx := gtx_at 1000 100 40 in
  let c := press_at (1000 + time.Second) 1 in
  F32.leb (ink_t gtx c) F32.zero = true /\
  expired gtx c = false /\
  is_ripple (emitted (drawInk gtx c)).
Proof.
  apply (future_start_never_expires (gtx_at 1000 100 40)
           (press_at (1000 + time.Second) 1)).
  vm_compute. discriminate.
Defined.

(** X4: from [now >= start] on, the [t] that reaches the easing of line 210
    lies in [0, 1]: it is not negative and, after the clamp, not above 1. *)
Theorem eased_t_in_unit_interval (gtx : layout.Context) (c : widget.Press) :
  widget.Start c <= layout.Now gtx ->
  F32.leb F32.zero (ink_t gtx c) = true /\
  F32.leb F32.zero (ink_clamped gtx c) = true /\
  F32.leb (ink_clamped gtx c) F32.one = true.
Proof.
  intros H. pose proof (ink_t_signed gtx c) as Hs.
  assert (E : (layout.Now gtx <? widget.Start c) = false) by (apply Z.ltb_ge; lia).
  rewrite E in Hs. apply signed_false_nonneg in Hs.
  split; [exact Hs|]. split; [|apply ink_clamped_le].
  unfold ink_clamped. now destruct (F32.gtb _ _).
Qed.

Lemma eased_t_in_unit_interval_witness :
  let gtx := gtx_at (1000 + 100000000) 100 40 in
  let c := press_at 1000 0 in
  F32.leb F32.zero (ink_t gtx c) = true /\
  F32.leb F32.zero (ink_clamped gtx c) = true /\
  F32.leb (ink_clamped gtx c) F32.one = true.
Proof.
  apply (eased_t_in_unit_interval (gtx_at (1000 + 100000000) 100 40)
           (press_at 1000 0)).
  vm_compute. discriminate.
Defined.

(** X5: once a held press (non-zero [Start], unset [End]) has [t > 1.0],
    its ripple no longer changes: any two such frames with the same minimum
    constraints get the same operations, and each of them still carries the
    [InvalidateOp] that asks for the next frame. *)
Theorem held_ripple_is_steady (gtx gtx' : layout.Context) (c : widget.Press) :
  time.IsZero (widget.End c) = true ->
  time.IsZero (widget.Start c) = false ->
  F32.gtb (ink_t gtx c) F32.one = true ->
  F32.gtb (ink_t gtx' c) F32.one = true ->
  layout.Min (layout.Constraints_ gtx) = layout.Min (layout.Constraints_ gtx') ->
  emitted (drawInk gtx c) = emitted (drawInk gtx' c) /\
  In InvalidateOp (emitted (drawInk gtx c)).
Proof.
  intros HE HS Ht Ht' HM.
  assert (Hx : forall g, expired g c = false).
  { intros g. unfold expired. rewrite HE, HS. apply andb_false_r. }
  rewrite !drawInk_live by apply Hx.
  unfold ink_clamped. rewrite Ht, Ht', !emitted_drawInk_from. cbv zeta.
  rewrite HM. split; [reflexivity|]. simpl. tauto.
Qed.

Lemma held_ripple_is_steady_witness :
  let c := press_at 1000 0 in
  emitted (drawInk (gtx_at (1000 + time.Second) 100 40) c) =
    emitted (drawInk (gtx_at (1000 + 100 * time.Second) 100 40) c) /\
  In InvalidateOp (emitted (drawInk (gtx_at (1000 + time.Second) 100 40) c)).
Proof.
  apply (held_ripple_is_steady (gtx_at (1000 + time.Second) 100 40)
           (gtx_at (1000 + 100 * time.Second) 100 40) (press_at 1000 0));
    reflexivity.
Defined.

(** X6: over a history, the loop [for _, c := range History() { drawInk }]
    draws the unexpired presses in the order of the history and nothing else:
    dropping the expired entries from the history first gives the same
    operations, a history made of two parts gives the operations of the first
    then those of the second, and seven operations are added per unexpired
    press. *)
Theorem expired_entries_draw_nothing (gtx : layout.Context) (h h' : list widget.Press) :
  emitted (forEach (drawInk gtx) h) =
    emitted (forEach (drawInk gtx) (filter (fun c => negb (expired gtx c)) h)) /\
  emitted (forEach (drawInk gtx) (h ++ h')) =
    emitted (forEach (drawInk gtx) h) ++ emitted (forEach (drawInk gtx) h') /\
  (length (emitted (forEach (drawInk gtx) h)) =
     7 * length (filter (fun c => negb (expired gtx c)) h))%nat.
Proof.
  rewrite !emitted_forEach_drawInk. split; [|split].
  - induction h as [|c h IH]; simpl; trivial.
    by_expiry gtx c; simpl.
    + exact IH.
    + rewrite drawInk_live by trivial. rewrite emitted_drawInk_from. cbv zeta.
      simpl. now rewrite IH.
  - apply flat_map_app.
  - induction h as [|c h IH]; simpl; trivial.
    rewrite length_app, IH.
    by_expiry gtx c; simpl; lia.
Qed.

Lemma invalidates_cons (o : Op) (l : Ops) :
  invalidates (o :: l) = ((if is_invalidate o then 1 else 0) + invalidates l)%nat.
Proof. unfold invalidates. simpl. now destruct (is_invalidate o). Qed.

Lemma invalidate_count_history (gtx : layout.Context) (h : list widget.Press) :
  invalidates (emitted (forEach (drawInk gtx) h)) =
    length (filter (fun c => negb (expired gtx c)) h).
Proof.
  rewrite emitted_forEach_drawInk.
  induction h as [|a h IH]; simpl; trivial.
  rewrite invalidates_app, invalidates_drawInk, IH.
  now destruct (expired gtx a).
Qed.

(** * Further facts about the layouts *)

Section LayoutMore.
Import widget layout material.
Variable mulAlpha : color.RGBA -> Z -> color.RGBA.
Variable Center_Layout : Context -> Widget -> M Dimensions.
Variable Inset_Layout : Inset -> Context -> Widget -> M Dimensions.
Local Abbreviation background_layer := (background_layer mulAlpha).
Local Abbreviation icon_background_layer := (icon_background_layer mulAlpha).
Local Abbreviation content_layer := (content_layer Center_Layout Inset_Layout).
Local Abbreviation ButtonLayoutStyle_Layout :=
  (ButtonLayoutStyle_Layout mulAlpha Center_Layout Inset_Layout).

(** What a layer draws before its ripples: the clip and the fill. *)
Lemma record_background_layer (b : ButtonLayoutStyle) (gtx : Context) :
  record (background_layer b gtx) =
    ({| Size := Min (Constraints_ gtx); Baseline := 0 |},
     firstn 3 (snd (record (background_layer b gtx)))
       ++ flat_map (fun c => emitted (drawInk gtx c)) (History (Button b))).
Proof.
  unfold record, material.background_layer, fill, bind, Add, ret; simpl.
  rewrite forEach_drawInk. reflexivity.
Qed.

Lemma background_layer_head (b b' : ButtonLayoutStyle) (gtx : Context) :
  Background b = Background b' -> CornerRadius b = CornerRadius b' ->
  firstn 3 (snd (record (background_layer b gtx))) =
    firstn 3 (snd (record (background_layer b' gtx))).
Proof.
  intros HB HC.
  unfold record, material.background_layer, fill, bind, Add, ret; simpl.
  rewrite !forEach_drawInk. simpl. now rewrite HB, HC.
Qed.

Lemma fst_Stack_Layout (a : Direction) (gtx : Context) (children : list StackChild)
    (ops : Ops) :
  fst (Stack_Layout a gtx children ops) =
    {| Size := stack_size (lay_out gtx children); Baseline := 0 |}.
Proof. unfold Stack_Layout, bind. now rewrite forEach_Add_all. Qed.

(** The frame of [ButtonLayoutStyle.Layout], cut around the ripples. *)
Lemma layout_split (b : ButtonLayoutStyle) (gtx : Context) (w : Widget) :
  let content := record (content_layer b (Min (Constraints_ gtx)) w
                           (with_Min gtx image.zeroPt)) in
  let egtx := with_Min gtx (Point_max image.zeroPt (Size (fst content))) in
  let hit := record (Clickable_Layout (Button b) egtx) in
  let size := Point_max (Point_max (Point_max image.zeroPt (Min (Constraints_ egtx)))
                                   (Size (fst content)))
                        (Size (fst hit)) in
  (forall ops, fst (ButtonLayoutStyle_Layout b gtx w ops) =
                 {| Size := size; Baseline := 0 |}) /\
  emitted (ButtonLayoutStyle_Layout b gtx w) =
    (PushOp
     :: TransformOp (TransformOp_Offset TransformOp_zero
                       (FPt (align Center size (Min (Constraints_ egtx)))))
     :: firstn 3 (snd (record (background_layer b egtx))))
    ++ flat_map (fun c => emitted (drawInk egtx c)) (History (Button b))
    ++ PopOp :: scope (align Center size (Size (fst content))) (snd content)
    ++ scope (align Center size (Size (fst hit))) (snd hit).
Proof.
  cbv zeta. split.
  - intros ops. unfold material.ButtonLayoutStyle_Layout.
    rewrite fst_Stack_Layout. unfold lay_out, stacked_size, stack_size.
    cbn [map fold_left expanded child Expanded Stacked].
    now rewrite record_background_layer.
  - unfold material.ButtonLayoutStyle_Layout. rewrite emitted_Stack_Layout.
    unfold lay_out, stacked_size, stack_size.
    cbn [map flat_map fold_left expanded child Expanded Stacked].
    match goal with
    | |- context [record (background_layer b ?g)] =>
        pose proof (record_background_layer b g) as R
    end.
    set (hd := firstn 3 _) in *.
    rewrite R. cbn [fst snd].
    unfold scope at 1. rewrite app_nil_r. cbn [app].
    now rewrite <- !app_assoc.
Qed.

Lemma history_split (b b' : ButtonLayoutStyle) (gtx : Context) (w : Widget) :
  Background b = Background b' ->
  CornerRadius b = CornerRadius b' ->
  Inset_ b = Inset_ b' ->
  exists egtx head tail,
    emitted (ButtonLayoutStyle_Layout b gtx w) =
      head ++ flat_map (fun c => emitted (drawInk egtx c)) (History (Button b)) ++ tail /\
    emitted (ButtonLayoutStyle_Layout b' gtx w) =
      head ++ flat_map (fun c => emitted (drawInk egtx c)) (History (Button b')) ++ tail.
Proof.
  intros HB HC HI.
  destruct (layout_split b gtx w) as [_ He].
  destruct (layout_split b' gtx w) as [_ He'].
  assert (Hc : content_layer b (Min (Constraints_ gtx)) w =
               content_layer b' (Min (Constraints_ gtx)) w)
    by (unfold material.content_layer; now rewrite HI).
  rewrite <- Hc in He'.
  do 3 eexists. split; [exact He|].
  rewrite He'. now rewrite (background_layer_head b b') by trivial.
Qed.

(** X7: the press history of a button changes nothing of its layout but the
    ripples.  Two [ButtonLayoutStyle]s that differ in their clickable only
    return the same dimensions, and their frames are the same operations
    before and after the ripples, which sit in one place, at the end of the
    background layer. *)
Theorem history_only_adds_ripples (b b' : ButtonLayoutStyle) (gtx : Context) (w : Widget) :
  Background b = Background b' ->
  CornerRadius b = CornerRadius b' ->
  Inset_ b = Inset_ b' ->
  (forall ops, fst (ButtonLayoutStyle_Layout b gtx w ops) =
               fst (ButtonLayoutStyle_Layout b' gtx w ops)) /\
  exists egtx head tail,
    emitted (ButtonLayoutStyle_Layout b gtx w) =
      head ++ flat_map (fun c => emitted (drawInk egtx c)) (History (Button b)) ++ tail /\
    emitted (ButtonLayoutStyle_Layout b' gtx w) =
      head ++ flat_map (fun c => emitted (drawInk egtx c)) (History (Button b')) ++ tail.
Proof.
  intros HB HC HI.
  destruct (layout_split b gtx w) as [Hd He].
  destruct (layout_split b' gtx w) as [Hd' He'].
  assert (Hc : content_layer b (Min (Constraints_ gtx)) w =
               content_layer b' (Min (Constraints_ gtx)) w)
    by (unfold material.content_layer; now rewrite HI).
  rewrite <- Hc in Hd', He'.
  split.
  - intros ops. now rewrite Hd, Hd'.
  - do 3 eexists. split; [exact He|].
    rewrite He'. now rewrite (background_layer_head b b') by trivial.
Qed.

Section FrameState.
Variable G : Type.
Variable apply : Op -> G -> G.
Local Abbreviation run := (run apply).

Lemma run_ripples (gtx : Context) (h : list Press) (st : G * list G) :
  run (flat_map (fun c => emitted (drawInk gtx c)) h) st = st.
Proof.
  induction h as [|c h IH]; simpl; trivial.
  now rewrite run_app, run_drawInk.
Qed.

(** X8: read with a push as saving and a pop as restoring the drawing
    state, the frame of [ButtonLayoutStyle.Layout] ends in the same state
    whatever the press history is: the ripples of the background layer leave
    no trace that the content layer, the hit-test layer or the rest of the
    frame could see. *)
Theorem frame_state_ignores_history (b b' : ButtonLayoutStyle) (gtx : Context)
    (w : Widget) (st : G * list G) :
  Background b = Background b' ->
  CornerRadius b = CornerRadius b' ->
  Inset_ b = Inset_ b' ->
  run (emitted (ButtonLayoutStyle_Layout b gtx w)) st =
    run (emitted (ButtonLayoutStyle_Layout b' gtx w)) st.
Proof.
  intros HB HC HI.
  destruct (history_split b b' gtx w HB HC HI) as (egtx & head & tail & E & E').
  rewrite E, E'. now rewrite !run_app, !run_ripples.
Qed.
End FrameState.

(** X9: [Clickable] emits three scoped layers, the hit-test registration
    first, then the ink (a plain rectangular clip and the ripples of the
    history), then the supplied widget on top; it adds no fill of its own.
    From its own two layers the frame gets one [InvalidateOp] per unexpired
    press. *)
Theorem clickable_layers (gtx : Context) (button : widget.Clickable) (w : Widget) :
  let content := record (w (with_Min gtx image.zeroPt)) in
  let egtx := with_Min gtx (Point_max image.zeroPt (Size (fst content))) in
  let hit :=
    [ PushOp;
      PointerRectOp {| image.Min := image.zeroPt; image.Max := Min (Constraints_ egtx) |};
      ClickOp; PopOp ] in
  let ink :=
    ClipOp {| clip.Rect_ := {| f32.Min := f32.zeroPt; f32.Max := FPt (Min (Constraints_ egtx)) |};
              clip.NE := F32.zero; clip.NW := F32.zero;
              clip.SE := F32.zero; clip.SW := F32.zero |}
    :: flat_map (fun c => emitted (drawInk egtx c)) (History button) in
  exists p1 p2 p3,
    emitted (material.Clickable gtx button w) =
      scope p1 hit ++ scope p2 ink ++ scope p3 (snd content) /\
    invalidates (scope p1 hit ++ scope p2 ink) =
      length (filter (fun c => negb (expired egtx c)) (History button)).
Proof.
  cbv zeta. unfold material.Clickable. rewrite emitted_Stack_Layout.
  set (sz := stack_size _).
  unfold lay_out, stacked_size.
  cbn [map flat_map fold_left expanded child Expanded Stacked].
  unfold record at 6 7 8. unfold clickable_ink_layer at 1 2.
  unfold bind, Add, ret. cbn [fst snd app].
  rewrite !forEach_drawInk. cbn [fst snd app]. rewrite app_nil_r.
  do 3 eexists. split; [reflexivity|].
  unfold scope. cbn [app]. unfold invalidates. simpl.
  rewrite filter_app, length_app. simpl. rewrite Nat.add_0_r.
  match goal with
  | |- context [History button] => generalize (History button)
  end.
  intros h. induction h as [|c h IH]; simpl; trivial.
  rewrite filter_app, length_app, IH.
  fold (invalidates (emitted (drawInk
          (with_Min gtx (Point_max image.zeroPt (Size (fst (record (w (with_Min gtx image.zeroPt)))))))
          c))).
  rewrite invalidates_drawInk. now destruct (expired _ c).
Qed.

(** X10: the three ink layers of [button.go] draw the same ripples from the
    same history.  The background layers of [ButtonLayoutStyle.Layout] and
    [IconButtonStyle.Layout] differ in their clip only (the icon button's is
    a disc whose diameter is the minimum width, whatever the minimum height
    is) and have the same fill; the ink layer of [Clickable] has a clip with
    no radius and no fill.  All three report the minimum size. *)
Theorem ink_layers_agree (bl : ButtonLayoutStyle) (ib : IconButtonStyle.t) (gtx : Context) :
  IconButtonStyle.Background ib = Background bl ->
  IconButtonStyle.Button ib = Button bl ->
  let ripples := flat_map (fun c => emitted (drawInk gtx c)) (History (Button bl)) in
  let width := F32.of_int (image.X (Min (Constraints_ gtx))) in
  let half := F32.mul width c0_5 in
  let area := {| f32.Min := f32.zeroPt; f32.Max := FPt (Min (Constraints_ gtx)) |} in
  let min := {| Size := Min (Constraints_ gtx); Baseline := 0 |} in
  exists corner c p,
    record (background_layer bl gtx) =
      (min, ClipOp {| clip.Rect_ := area; clip.NE := corner; clip.NW := corner;
                      clip.SE := corner; clip.SW := corner |}
            :: ColorOp c :: PaintOp p :: ripples) /\
    record (icon_background_layer ib gtx) =
      (min, ClipOp {| clip.Rect_ := {| f32.Min := f32.zeroPt; f32.Max := f32.Pt width width |};
                      clip.NE := half; clip.NW := half; clip.SE := half; clip.SW := half |}
            :: ColorOp c :: PaintOp p :: ripples) /\
    record (clickable_ink_layer (Button bl) gtx) =
      (min, ClipOp {| clip.Rect_ := area; clip.NE := F32.zero; clip.NW := F32.zero;
                      clip.SE := F32.zero; clip.SW := F32.zero |}
            :: ripples).
Proof.
  intros HB HBt. cbv zeta.
  unfold record, material.background_layer, material.icon_background_layer,
    clickable_ink_layer, fill, bind, Add, ret; simpl.
  rewrite HB, HBt, !forEach_drawInk. simpl.
  do 3 eexists. repeat split; reflexivity.
Qed.
(** X11: the frame of [ButtonLayoutStyle.Layout] asks for a redraw once
    per unexpired press of the history, and beyond that only as often as the
    content widget does: the clip, the fill and the hit-test layer never
    do. *)
Theorem layout_redraw_requests (b : ButtonLayoutStyle) (gtx : Context) (w : Widget) :
  let content := record (content_layer b (Min (Constraints_ gtx)) w
                           (with_Min gtx image.zeroPt)) in
  let egtx := with_Min gtx (Point_max image.zeroPt (Size (fst content))) in
  invalidates (emitted (ButtonLayoutStyle_Layout b gtx w)) =
    (length (filter (fun c => negb (expired egtx c)) (History (Button b)))
     + invalidates (snd content))%nat.
Proof.
  cbv zeta. destruct (layout_split b gtx w) as [_ He]. rewrite He. clear He.
  match goal with
  | |- context [record (background_layer b ?g)] =>
      rewrite (emitted_background_layer mulAlpha b g)
  end.
  cbv zeta. unfold scope. cbn [firstn app].
  repeat (rewrite invalidates_cons || rewrite invalidates_app).
  rewrite <- emitted_forEach_drawInk, invalidate_count_history.
  cbn [is_invalidate].
  match goal with
  | |- context [invalidates (snd (record (Clickable_Layout ?c ?g)))] =>
      change (invalidates (snd (record (Clickable_Layout c g)))) with 0%nat
  end.
  change (invalidates []) with 0%nat. lia.
Qed.

End LayoutMore.

Lemma history_only_adds_ripples_witness :
  let mulAlpha : color.RGBA -> Z -> color.RGBA := fun c _ => c in
  let Center_Layout : layout.Context -> layout.Widget -> M layout.Dimensions :=
    fun g w => w g in
  let Inset_Layout : layout.Inset -> layout.Context -> layout.Widget -> M layout.Dimensions :=
    fun _ g w => w g in
  let Layout := material.ButtonLayoutStyle_Layout mulAlpha Center_Layout Inset_Layout in
  let dp12 := {| unit.V := F32.of_int 12; unit.U := unit.UnitDp |} in
  let b := {| material.Background :=
                {| color.R := 63; color.G := 81; color.B := 181; color.A := 255 |};
              material.CornerRadius := {| unit.V := F32.of_int 4; unit.U := unit.UnitDp |};
              material.Inset_ := {| layout.Top := dp12; layout.Right := dp12;
                                    layout.Bottom := dp12; layout.Left := dp12 |};
              material.Button := {| widget.history := [press_at 1000 0] |} |} in
  let b' := {| material.Background := material.Background b;
               material.CornerRadius := material.CornerRadius b;
               material.Inset_ := material.Inset_ b;
               material.Button := {| widget.history := [] |} |} in
  let gtx := gtx_at (1000 + 200000000) 100 40 in
  let w : layout.Widget :=
    fun g => ret {| layout.Size := image.Pt 30 10; layout.Baseline := 0 |} in
  (forall ops, fst (Layout b gtx w ops) = fst (Layout b' gtx w ops)) /\
  exists egtx head tail,
    emitted (Layout b gtx w) =
      head ++ flat_map (fun c => emitted (drawInk egtx c))
                       (widget.History (material.Button b)) ++ tail /\
    emitted (Layout b' gtx w) =
      head ++ flat_map (fun c => emitted (drawInk egtx c))
                       (widget.History (material.Button b')) ++ tail.
Proof.
  cbv zeta. apply history_only_adds_ripples; reflexivity.
Defined.


Lemma frame_state_ignores_history_witness :
  let mulAlpha : color.RGBA -> Z -> color.RGBA := fun c _ => c in
  let Center_Layout : layout.Context -> layout.Widget -> M layout.Dimensions :=
    fun g w => w g in
  let Inset_Layout : layout.Inset -> layout.Context -> layout.Widget -> M layout.Dimensions :=
    fun _ g w => w g in
  let Layout := material.ButtonLayoutStyle_Layout mulAlpha Center_Layout Inset_Layout in
  let dp12 := {| unit.V := F32.of_int 12; unit.U := unit.UnitDp |} in
  let b := {| material.Background :=
                {| color.R := 63; color.G := 81; color.B := 181; color.A := 255 |};
              material.CornerRadius := {| unit.V := F32.of_int 4; unit.U := unit.UnitDp |};
              material.Inset_ := {| layout.Top := dp12; layout.Right := dp12;
                                    layout.Bottom := dp12; layout.Left := dp12 |};
              material.Button := {| widget.history := [press_at 1000 0] |} |} in
  let b' := {| material.Background := material.Background b;
               material.CornerRadius := material.CornerRadius b;
               material.Inset_ := material.Inset_ b;
               material.Button := {| widget.history := [] |} |} in
  let gtx := gtx_at (1000 + 200000000) 100 40 in
  let w : layout.Widget :=
    fun g => ret {| layout.Size := image.Pt 30 10; layout.Baseline := 0 |} in
  (* the drawing state: the operations applied so far, latest first *)
  let apply : Op -> list Op -> list Op := cons in
  run apply (emitted (Layout b gtx w)) ([], []) =
    run apply (emitted (Layout b' gtx w)) ([], []).
Proof.
  cbv zeta. apply frame_state_ignores_history; reflexivity.
Defined.

Lemma ink_layers_agree_witness :
  let mulAlpha : color.RGBA -> Z -> color.RGBA := fun c _ => c in
  let dp12 := {| unit.V := F32.of_int 12; unit.U := unit.UnitDp |} in
  let inset := {| layout.Top := dp12; layout.Right := dp12;
                  layout.Bottom := dp12; layout.Left := dp12 |} in
  let blue := {| color.R := 63; color.G := 81; color.B := 181; color.A := 255 |} in
  let button := {| widget.history := [press_at 1000 0] |} in
  let bl := {| material.Background := blue; material.CornerRadius := dp12;
               material.Inset_ := inset; material.Button := button |} in
  let ib := {| material.IconButtonStyle.Background := blue;
               material.IconButtonStyle.Color := blue;
               material.IconButtonStyle.Icon_ := None;
               material.IconButtonStyle.Size := dp12;
               material.IconButtonStyle.Inset := inset;
               material.IconButtonStyle.Button := button |} in
  let gtx := gtx_at (1000 + 200000000) 100 40 in
  let ripples := flat_map (fun c => emitted (drawInk gtx c)) [press_at 1000 0] in
  let area := {| f32.Min := f32.zeroPt;
                 f32.Max := f32.Pt (F32.of_int 100) (F32.of_int 40) |} in
  let min := {| layout.Size := image.Pt 100 40; layout.Baseline := 0 |} in
  exists corner c p,
    material.record (material.background_layer mulAlpha bl gtx) =
      (min, ClipOp {| clip.Rect_ := area; clip.NE := corner; clip.NW := corner;
                      clip.SE := corner; clip.SW := corner |}
            :: ColorOp c :: PaintOp p :: ripples) /\
    material.record (material.icon_background_layer mulAlpha ib gtx) =
      (min, ClipOp {| clip.Rect_ :=
                        {| f32.Min := f32.zeroPt;
                           f32.Max := f32.Pt (F32.of_int 100) (F32.of_int 100) |};
                      clip.NE := F32.of_int 50; clip.NW := F32.of_int 50;
                      clip.SE := F32.of_int 50; clip.SW := F32.of_int 50 |}
            :: ColorOp c :: PaintOp p :: ripples) /\
    material.record (material.clickable_ink_layer button gtx) =
      (min, ClipOp {| clip.Rect_ := area; clip.NE := F32.zero; clip.NW := F32.zero;
                      clip.SE := F32.zero; clip.SW := F32.zero |}
            :: ripples).
Proof.
  cbv zeta.
  exact (ink_layers_agree (fun c _ => c)
           {| material.Background :=
                {| color.R := 63; color.G := 81; color.B := 181; color.A := 255 |};
              material.CornerRadius := {| unit.V := F32.of_int 12; unit.U := unit.UnitDp |};
              material.Inset_ :=
                {| layout.Top := {| unit.V := F32.of_int 12; unit.U := unit.UnitDp |};
                   layout.Right := {| unit.V := F32.of_int 12; unit.U := unit.UnitDp |};
                   layout.Bottom := {| unit.V := F32.of_int 12; unit.U := unit.UnitDp |};
                   layout.Left := {| unit.V := F32.of_int 12; unit.U := unit.UnitDp |} |};
              material.Button := {| widget.history := [press_at 1000 0] |} |}
           {| material.IconButtonStyle.Background :=
                {| color.R := 63; color.G := 81; color.B := 181; color.A := 255 |};
              material.IconButtonStyle.Color :=
                {| color.R := 63; color.G := 81; color.B := 181; color.A := 255 |};
              material.IconButtonStyle.Icon_ := None;
              material.IconButtonStyle.Size := {| unit.V := F32.of_int 12; unit.U := unit.UnitDp |};
              material.IconButtonStyle.Inset :=
                {| layout.Top := {| unit.V := F32.of_int 12; unit.U := unit.UnitDp |};
                   layout.Right := {| unit.V := F32.of_int 12; unit.U := unit.UnitDp |};
                   layout.Bottom := {| unit.V := F32.of_int 12; unit.U := unit.UnitDp |};
                   layout.Left := {| unit.V := F32.of_int 12; unit.U := unit.UnitDp |} |};
              material.IconButtonStyle.Button := {| widget.history := [press_at 1000 0] |} |}
           (gtx_at (1000 + 200000000) 100 40) eq_refl eq_refl).
Defined.

(** * The ripple at millisecond resolution *)

Lemma pairwise_le_nth (l : list F32.t) (d : F32.t) :
  pairwise_le l = true ->
  forall i j, (i <= j < length l)%nat -> F32.leb (nth i l d) (nth j l d) = true.
Proof.
  induction l as [|x r IH]; intros H i j Hij; simpl in Hij; [lia|].
  cbn [pairwise_le] in H. apply andb_true_iff in H as [Hx Hr].
  destruct i as [|i].
  - rewrite forallb_forall in Hx. apply Hx, nth_In. simpl. lia.
  - destruct j as [|j]; [lia|]. simpl. apply IH; trivial. lia.
Qed.

Lemma expiry_by_ms_all :
  forallb (fun k => Bool.eqb (F32.gtb (t_of_age (ms (Z.of_nat k))) F32.one)
                             (400 <? Z.of_nat k))
          (seq 0 2001) = true.
Proof. vm_compute. reflexivity. Qed.

Lemma expiry_by_ms (n : Z) :
  0 <= n <= 2000 -> F32.gtb (t_of_age (ms n)) F32.one = (400 <? n).
Proof.
  intros H. pose proof expiry_by_ms_all as A. rewrite forallb_forall in A.
  specialize (A (Z.to_nat n)). rewrite Z2Nat.id in A by lia.
  apply Bool.eqb_prop, A, in_seq. lia.
Qed.

Lemma blends_by_ms_sorted : pairwise_le blends_by_ms = true.
Proof. vm_compute. reflexivity. Qed.

Lemma blends_by_ms_nth (n : Z) :
  0 <= n <= 400 ->
  nth (Z.to_nat n) blends_by_ms F32.zero = bezierBlend (t_of_age (ms n)).
Proof.
  intros H. unfold blends_by_ms.
  change F32.zero with ((fun k => bezierBlend (t_of_age (ms (Z.of_nat k)))) 0%nat).
  rewrite map_nth, seq_nth by lia. simpl. now rewrite Z2Nat.id by lia.
Qed.

(** X12: at every whole number [n] of milliseconds after [Start], up to two
    seconds, a released press is expired exactly when [n > 400]: its ripple
    is drawn (seven operations) up to and including 400 ms and nothing is
    emitted from 401 ms on. *)
Theorem released_expiry_by_ms (gtx : layout.Context) (c : widget.Press) (n : Z) :
  0 <= n <= 2000 ->
  time.IsZero (widget.End c) = false ->
  layout.Now gtx = widget.Start c + ms n ->
  expired gtx c = (400 <? n) /\
  length (emitted (drawInk gtx c)) = (if 400 <? n then 0%nat else 7%nat).
Proof.
  intros Hn HE Hnow.
  assert (Ht : F32.gtb (ink_t gtx c) F32.one = (400 <? n)).
  { rewrite (ink_t_age gtx c _ Hnow); [now apply expiry_by_ms|].
    unfold ms, time.minDuration, time.maxDuration. lia. }
  assert (Hx : expired gtx c = (400 <? n)).
  { unfold expired. rewrite Ht, HE. simpl. now rewrite orb_true_r, andb_true_r. }
  split; [exact Hx|]. rewrite <- Hx.
  by_expiry gtx c; reflexivity.
Qed.

Lemma released_expiry_by_ms_witness :
  let gtx := gtx_at (1000 + ms 401) 100 40 in
  let c := press_at 1000 2000 in
  expired gtx c = (400 <? 401) /\
  length (emitted (drawInk gtx c)) = (if 400 <? 401 then 0%nat else 7%nat).
Proof.
  apply (released_expiry_by_ms (gtx_at (1000 + ms 401) 100 40)
           (press_at 1000 2000) 401); [lia|reflexivity|reflexivity].
Defined.

(** X13: seen at whole milliseconds, the ripple of a press only grows.  For
    two frames [m <= n] milliseconds after [Start], both within the 400 ms of
    the animation, the blend that [drawInk] uses in the first is at most the
    blend it uses in the second; it is 0 at 0 ms and 1 at 400 ms. *)
Theorem ripple_grows_by_ms (gtx gtx' : layout.Context) (c : widget.Press) (m n : Z) :
  0 <= m -> m <= n -> n <= 400 ->
  layout.Now gtx = widget.Start c + ms m ->
  layout.Now gtx' = widget.Start c + ms n ->
  F32.leb (bezierBlend (ink_t2 (ink_clamped gtx c)))
          (bezierBlend (ink_t2 (ink_clamped gtx' c))) = true /\
  (m = 0 -> bezierBlend (ink_t2 (ink_clamped gtx c)) = F32.zero) /\
  (n = 400 -> bezierBlend (ink_t2 (ink_clamped gtx' c)) = F32.one).
Proof.
  intros Hm Hmn Hn Hg Hg'.
  assert (Hc : forall g k, 0 <= k <= 400 -> layout.Now g = widget.Start c + ms k ->
                 ink_t2 (ink_clamped g c) = t_of_age (ms k)).
  { intros g k Hk Hnow. unfold ink_t2. rewrite ink_clamped_not_gt.
    unfold ink_clamped. rewrite (ink_t_age g c _ Hnow)
      by (unfold ms, time.minDuration, time.maxDuration; lia).
    rewrite expiry_by_ms by lia.
    now replace (400 <? k) with false by (symmetry; apply Z.ltb_ge; lia). }
  rewrite (Hc gtx m), (Hc gtx' n) by (trivial; lia).
  split; [|split].
  - rewrite <- !blends_by_ms_nth by lia.
    apply pairwise_le_nth; [apply blends_by_ms_sorted|].
    change (length blends_by_ms) with 401%nat. lia.
  - now intros ->.
  - now intros ->.
Qed.

Lemma ripple_grows_by_ms_witness :
  let c := press_at 1000 0 in
  let gtx := gtx_at (1000 + ms 399) 100 40 in
  let gtx' := gtx_at (1000 + ms 400) 100 40 in
  F32.leb (bezierBlend (ink_t2 (ink_clamped gtx c)))
          (bezierBlend (ink_t2 (ink_clamped gtx' c))) = true /\
  (399 = 0 -> bezierBlend (ink_t2 (ink_clamped gtx c)) = F32.zero) /\
  (400 = 400 -> bezierBlend (ink_t2 (ink_clamped gtx' c)) = F32.one).
Proof.
  apply (ripple_grows_by_ms (gtx_at (1000 + ms 399) 100 40)
           (gtx_at (1000 + ms 400) 100 40) (press_at 1000 0) 399 400);
    try lia; reflexivity.
Defined.
